(** * ScrapperMMA: the article store, the topic filter and the pipeline loop

    A shallow embedding of [pipeline/storage.py], [pipeline/sitegen.py],
    [pipeline/sources.py], [pipeline/run.py] and the topic filter of the
    legacy [funcoina.py], with the properties of the ingestion core. *)

From Stdlib Require Import ZArith NArith Ascii String Lia.
From stdpp Require Import base list sorting gmap.

Local Open Scope Z_scope.

(** ** Python values

    A Python [str] is a sequence of Unicode code points.  String literals of
    the sources are written as Rocq strings (UTF-8 bytes) and decoded. *)
Module Py.

Definition str := list N.

Fixpoint utf8_decode (bs : list N) : str :=
  match bs with
  | [] => []
  | b0 :: t0 =>
    if (b0 <? 128)%N then b0 :: utf8_decode t0
    else match t0 with
    | [] => []
    | b1 :: t1 =>
      if (b0 <? 224)%N then ((b0 - 192) * 64 + (b1 - 128))%N :: utf8_decode t1
      else match t1 with
      | [] => []
      | b2 :: t2 =>
        if (b0 <? 240)%N
        then ((b0 - 224) * 4096 + (b1 - 128) * 64 + (b2 - 128))%N :: utf8_decode t2
        else match t2 with
        | [] => []
        | b3 :: t3 =>
          ((b0 - 240) * 262144 + (b1 - 128) * 4096 + (b2 - 128) * 64 + (b3 - 128))%N
            :: utf8_decode t3
        end
      end
    end
  end.

(** [py "..."] is the Python literal ["..."]. *)
Definition py (s : string) : str :=
  utf8_decode (map N_of_ascii (list_ascii_of_string s)).

Definition SPACE : N := 32.
Definition SLASH : N := 47.

(** The part of the Unicode character database that [str.lower], [str.split]
    and [str.strip] consult: the lower-case mapping of a code point (one code
    point may map to several) and the white-space property.  The space
    character is its own lower-case form. *)
Class Unicode := {
  lower_cp : N → list N;
  isspace : N → bool;
  lower_cp_space : lower_cp SPACE = [SPACE]
}.

(** Python exceptions, by their [repr], and results of calls that may raise. *)
Record Exception := { repr : str }.

Inductive Result (A : Type) :=
| Ok (a : A)
| Raise (ex : Exception).
Arguments Ok {A} a.
Arguments Raise {A} ex.

(** No code point of the string is a surrogate (U+D800 to U+DFFF): the
    string has a UTF-8 encoding. *)
Definition no_surrogate (s : str) : bool :=
  forallb (λ c, (c <? 55296)%N || (57343 <? c)%N) s.

(** [x or d] on a [str] and on an [int]: the empty string and zero are falsy. *)
Definition or_str (x d : str) : str :=
  match x with [] => d | _ => x end.

Definition or_int (x d : Z) : Z :=
  if x =? 0 then d else x.

(** [x or d] where [x] may also be [None] (a missing attribute defaulted to
    [None], or a library call that returns [None]). *)
Definition opt_or_str (x : option str) (d : str) : str :=
  match x with None => d | Some s => or_str s d end.

(** [s[:n]]: a negative bound counts from the end. *)
Definition slice_to {A} (n : Z) (l : list A) : list A :=
  if 0 <=? n then take (Z.to_nat n) l
  else take (length l - Z.to_nat (- n))%nat l.

(** [s.startswith(k)], [s.endswith(k)], [k in s]. *)
Fixpoint startswith (k s : str) : bool :=
  match k, s with
  | [], _ => true
  | _ :: _, [] => false
  | x :: k', y :: s' => (x =? y)%N && startswith k' s'
  end.

Definition endswith (k s : str) : bool := startswith (reverse k) (reverse s).

Fixpoint contains (k s : str) : bool :=
  startswith k s ||
  match s with
  | [] => false
  | _ :: s' => contains k s'
  end.

(** [occurs k s]: [k] is a contiguous part of [s], the meaning of [k in s]. *)
Definition occurs (k s : str) : Prop := ∃ l1 l2, s = l1 ++ k ++ l2.

(** [any(k in s for k in ks)]. *)
Definition any_in (ks : list str) (s : str) : bool :=
  existsb (λ k, contains k s) ks.

(** [s.count(c)] for a one-character needle [c]. *)
Fixpoint count_char (c : N) (s : str) : Z :=
  match s with
  | [] => 0
  | x :: s' => (if (x =? c)%N then 1 else 0) + count_char c s'
  end.

(** [sep.join(parts)]. *)
Fixpoint join (sep : str) (parts : list str) : str :=
  match parts with
  | [] => []
  | [p] => p
  | p :: ps => p ++ sep ++ join sep ps
  end.

(** [s.replace(old, new)] for a one-character [old]. *)
Definition replace_char (old : N) (new : str) (s : str) : str :=
  s ≫= λ c, if (c =? old)%N then new else [c].

(** Lexicographic order of code points (the order of SQLite's BINARY
    collation on UTF-8 text). *)
Fixpoint str_leb (a b : str) : bool :=
  match a, b with
  | [], _ => true
  | _ :: _, [] => false
  | x :: a', y :: b' => (x <? y)%N || ((x =? y)%N && str_leb a' b')
  end.

Section unicode.
Context `{Unicode}.

(** [s.lower()]. *)
Definition lower (s : str) : str := s ≫= lower_cp.

(** [s.strip()]. *)
Fixpoint lstrip (s : str) : str :=
  match s with
  | [] => []
  | c :: s' => if isspace c then lstrip s' else s
  end.

Definition strip (s : str) : str := reverse (lstrip (reverse (lstrip s))).

(** [s.split()]: the maximal runs of non-space characters; [cur] is the run
    being read, reversed. *)
Fixpoint split_from (cur : str) (s : str) : list str :=
  match s with
  | [] => match cur with [] => [] | _ => [reverse cur] end
  | c :: s' =>
    if isspace c
    then match cur with [] => split_from [] s' | _ => reverse cur :: split_from [] s' end
    else split_from (c :: cur) s'
  end.

Definition split (s : str) : list str := split_from [] s.
End unicode.

(** An instance covering Basic Latin and Latin-1 Supplement, the blocks in
    which every keyword of the sources is written; used to run the functions
    on concrete inputs. *)
Definition latin1_lower_cp (c : N) : list N :=
  if ((65 <=? c) && (c <=? 90))%N then [(c + 32)%N]
  else if ((192 <=? c) && (c <=? 222) && negb (c =? 215))%N then [(c + 32)%N]
  else [c].

Definition latin1_isspace (c : N) : bool :=
  ((9 <=? c) && (c <=? 13) || (28 <=? c) && (c <=? 32) || (c =? 133) || (c =? 160))%N.

Definition latin1 : Unicode :=
  {| lower_cp := latin1_lower_cp; isspace := latin1_isspace;
     lower_cp_space := eq_refl |}.

End Py.

Import Py.

(** ** pipeline/storage.py *)
Module Storage.

Record ArticleRow := {
  url : str;
  final_url : str;
  title : str;
  source : str;
  published : str;
  domain : str;
  fetched_at : str;
  extracted_chars : Z;
  content_hash : str;
  text : str
}.

Record RunRow := {
  run_id : str;
  started_at : str;
  finished_at : str;
  run_total_candidates : Z;
  run_stored_new : Z;
  run_stored_updated : Z;
  run_skipped_existing : Z;
  run_extract_ok : Z
}.

(** The database file: the rows of the two tables, in rowid order.  Rows are
    only ever written from an [ArticleRow], so the columns hold values of the
    field types of the dataclass. *)
Record SQLiteStore := {
  articles : list ArticleRow;
  runs : list RunRow
}.

(** The state [_init_db] leaves on a fresh file. *)
Definition empty_db : SQLiteStore := {| articles := []; runs := [] |}.

Definition with_articles (rows : list ArticleRow) (db : SQLiteStore) : SQLiteStore :=
  {| articles := rows; runs := runs db |}.

(** [SELECT 1 FROM articles WHERE url = ? LIMIT 1] ... [row is not None]. *)
Definition has_url (db : SQLiteStore) (u : str) : bool :=
  existsb (λ r, bool_decide (url r = u)) (articles db).

(** [SELECT * FROM articles WHERE url = ?] ... [fetchone()]. *)
Definition get_by_url (db : SQLiteStore) (u : str) : option ArticleRow :=
  find (λ r, bool_decide (url r = u)) (articles db).

(** [UPDATE articles SET ... WHERE url = ?]: every column but [url] is set. *)
Definition update_row (a r : ArticleRow) : ArticleRow :=
  if bool_decide (url r = url a)
  then {| url := url r; final_url := final_url a; title := title a;
          source := source a; published := published a; domain := domain a;
          fetched_at := fetched_at a; extracted_chars := extracted_chars a;
          content_hash := content_hash a; text := text a |}
  else r.

(** A value bound to a [?] of a statement. *)
Inductive Param :=
| PText (s : str)
| PInt (n : Z).

(** The binding of parameters by the [sqlite3] module: [bind_error p] is the
    exception [execute] raises on the value [p], if any.  An [int] binds
    exactly when it fits a signed 64-bit integer ([OverflowError] otherwise);
    a [str] with a lone surrogate cannot be encoded and does not bind.
    The binding is modelled in [upsert_article], the method that writes
    articles; [has_url], [get_by_url], [record_run] and [list_recent] are
    modelled on values that bind. *)
Class Sqlite3 := {
  bind_error : Param → option Exception;
  bind_error_int : ∀ n, bind_error (PInt n) = None ↔ - 2 ^ 63 ≤ n < 2 ^ 63;
  bind_error_surrogate : ∀ s, no_surrogate s = false → bind_error (PText s) ≠ None
}.

Section binding.
Context `{Sqlite3}.

(** The parameters of a statement are bound in order; the first that does
    not bind raises, and the statement is not run. *)
Fixpoint bind_params (ps : list Param) : option Exception :=
  match ps with
  | [] => None
  | p :: ps' =>
    match bind_error p with
    | Some ex => Some ex
    | None => bind_params ps'
    end
  end.

(** The tuple of the [INSERT]. *)
Definition insert_params (a : ArticleRow) : list Param :=
  [PText (url a); PText (final_url a); PText (title a); PText (source a);
   PText (published a); PText (domain a); PText (fetched_at a);
   PInt (extracted_chars a); PText (content_hash a); PText (text a)].

(** The tuple of the [UPDATE]. *)
Definition update_params (a : ArticleRow) : list Param :=
  [PText (final_url a); PText (title a); PText (source a); PText (published a);
   PText (domain a); PText (fetched_at a); PInt (extracted_chars a);
   PText (content_hash a); PText (text a); PText (url a)].

(** The answer, ["new"], ["updated"] or ["unchanged"], or the exception
    raised, and the database after the call.  The [SELECT] of [get_by_url]
    binds [a.url]; the comparison with the stored row binds nothing; a
    statement whose parameters do not bind writes nothing. *)
Definition upsert_article (db : SQLiteStore) (a : ArticleRow)
    : Result str * SQLiteStore :=
  match bind_params [PText (url a)] with
  | Some ex => (Raise ex, db)
  | None =>
    match get_by_url db (url a) with
    | None =>
      match bind_params (insert_params a) with
      | Some ex => (Raise ex, db)
      | None => (Ok (py "new"), with_articles (articles db ++ [a]) db)
      end
    | Some existing =>
      if bool_decide (or_str (content_hash existing) [] = or_str (content_hash a) [])
         && bool_decide (or_int (extracted_chars existing) 0 = extracted_chars a)
      then (Ok (py "unchanged"), db)
      else
        match bind_params (update_params a) with
        | Some ex => (Raise ex, db)
        | None => (Ok (py "updated"), with_articles (update_row a <$> articles db) db)
        end
    end
  end.
End binding.

(** [INSERT OR REPLACE INTO runs]: a row with the same [run_id] is deleted,
    the new one is added. *)
Definition record_run (db : SQLiteStore) (r : RunRow) : SQLiteStore :=
  {| articles := articles db;
     runs := filter (λ r', run_id r' ≠ run_id r) (runs db) ++ [r] |}.

(** [ORDER BY fetched_at DESC]: [a] may come before [b]. *)
Definition fetched_desc (a b : ArticleRow) : Prop :=
  str_leb (fetched_at b) (fetched_at a).

#[global] Instance fetched_desc_dec : RelDecision fetched_desc :=
  λ a b, decide (Is_true (str_leb (fetched_at b) (fetched_at a))).

(** [LIMIT ?]: SQLite puts no upper bound on the number of rows when the
    limit is negative. *)
Definition sql_limit {A} (limit : Z) (rows : list A) : list A :=
  if limit <? 0 then rows else take (Z.to_nat limit) rows.

(** [SELECT * FROM articles ORDER BY fetched_at DESC LIMIT ?].  The statement
    does not mention [days].  SQL leaves the order of rows with equal
    [fetched_at] open; the model takes the one of a merge sort. *)
Definition list_recent (db : SQLiteStore) (days : Z) (limit : Z) : list ArticleRow :=
  sql_limit limit (merge_sort fetched_desc (articles db)).

End Storage.

(** ** pipeline/sitegen.py *)
Module Sitegen.
Import Storage.

Definition KEYWORDS_MMA : list str := [
  py "ufc"; py "mma"; py "topuria"; py "makhachev"; py "pereira"; py "volkanovski";
  py "fight night"; py "octagono"; py "octágono"
].

Definition KEYWORDS_BOX : list str := [
  py "boxeo"; py "wbc"; py "wba"; py "ibf"; py "wbo";
  py "canelo"; py "inoue"; py "tyson"; py "crawford"; py "usyk"; py "fury"
].

Record Item := {
  item_title : str;
  item_url : str;
  item_source : str;
  item_domain : str;
  item_published : str;
  item_fetched_at : str;
  item_sport : str;
  item_preview : str
}.

Section unicode.
Context `{Unicode}.

Definition classify_sport (title url text : str) : str :=
  let s := lower (title ++ [SPACE] ++ url ++ [SPACE] ++ text) in
  let mma := any_in KEYWORDS_MMA s in
  let box := any_in KEYWORDS_BOX s in
  if mma && negb box then py "MMA"
  else if box && negb mma then py "Boxeo"
  else if mma && box then py "Mixto"
  else py "Otro".

(** The entries [build_index] embeds in the page, one per row. *)
Definition build_index_item (r : ArticleRow) : Item :=
  let title := or_str (Storage.title r) [] in
  let url := or_str (Storage.url r) [] in
  let txt := or_str (Storage.text r) [] in
  {| item_title := title;
     item_url := url;
     item_source := or_str (source r) [];
     item_domain := or_str (domain r) [];
     item_published := or_str (published r) [];
     item_fetched_at := or_str (fetched_at r) [];
     item_sport := classify_sport title url txt;
     item_preview :=
       match txt with
       | [] => []
       | _ => strip ((λ c, if (c =? 10)%N then SPACE else c) <$> slice_to 280 txt)
       end |}.

Definition build_index (rows : list ArticleRow) : list Item :=
  build_index_item <$> rows.
End unicode.

End Sitegen.

(** ** pipeline/sources.py *)
Module Sources.

Record Source := {
  name : str;
  type : str;
  url : str;
  sport_hint : str
}.

Definition SOURCES : list Source := [
  {| name := py "marca_portada"; type := py "rss";
     url := py "https://e00-marca.uecdn.es/rss/portada.xml"; sport_hint := py "mixed" |};
  {| name := py "dazn_news"; type := py "html_list";
     url := py "https://www.dazn.com/es-ES/news"; sport_hint := py "mixed" |};
  {| name := py "eurosport_mma"; type := py "html_list";
     url := py "https://www.eurosport.es/mma/"; sport_hint := py "mma" |};
  {| name := py "eurosport_ufc"; type := py "html_list";
     url := py "https://www.eurosport.es/mma/ufc/"; sport_hint := py "mma" |}
].

End Sources.

(** ** funcoina.py (the topic filter of the legacy script) *)
Module Funcoina.

Definition KEYWORDS_MMA : list str := [
  py "ufc"; py "mma"; py "topuria"; py "makhachev"; py "pereira"; py "volkanovski";
  py "fight night"; py "octagono"; py "octágono"
].

Definition KEYWORDS_BOX : list str := [
  py "boxeo"; py "wbc"; py "wba"; py "ibf"; py "wbo";
  py "peso pluma"; py "peso welter"; py "peso medio";
  py "canelo"; py "inoue"; py "tyson"; py "crawford"; py "usyk"; py "fury"
].

Definition STOPWORDS_URL : list str := [
  py "/futbol/"; py "/tenis/"; py "/baloncesto/"; py "/ciclismo/"; py "/juegos-olimpicos/";
  py "/snooker/"; py "/motor/"; py "/formula-1/"; py "/motogp/"; py "/golf/"; py "/rugby/";
  py "/calendario"; py "/resultados"; py "/medallero"; py "/equipo"; py "/deportes/";
  py "/suscrib"; py "/registro"; py "/inicio"; py "/ver"; py "/para-ti"
].

Definition looks_like_combat_sports `{Unicode} (title url : str) : bool :=
  let s := lower (title ++ [SPACE] ++ url) in
  if any_in STOPWORDS_URL s then false
  else any_in KEYWORDS_MMA s || any_in KEYWORDS_BOX s.

(** [esc], the helper of [write_html]. *)
Definition esc (s : str) : str :=
  replace_char 62 (py "&gt;")
    (replace_char 60 (py "&lt;")
       (replace_char 38 (py "&amp;") (or_str s []))).

End Funcoina.

(** ** pipeline/run.py *)
Module Run.
Import Storage.

Definition MIN_CHARS : Z := 900.
Definition PREVIEW_CHARS : Z := 900.

Definition KEYWORDS_MMA : list str := [
  py "ufc"; py "mma"; py "topuria"; py "makhachev"; py "pereira"; py "volkanovski";
  py "fight night"; py "octagono"; py "octágono"
].

Definition KEYWORDS_BOX : list str := [
  py "boxeo"; py "wbc"; py "wba"; py "ibf"; py "wbo";
  py "peso pluma"; py "peso welter"; py "peso medio";
  py "canelo"; py "inoue"; py "tyson"; py "crawford"; py "usyk"; py "fury"
].

Definition STOPWORDS_URL : list str := [
  py "/futbol/"; py "/tenis/"; py "/baloncesto/"; py "/ciclismo/"; py "/juegos-olimpicos/";
  py "/snooker/"; py "/motor/"; py "/formula-1/"; py "/motogp/"; py "/golf/"; py "/rugby/";
  py "/calendario"; py "/resultados"; py "/medallero"; py "/equipo"; py "/deportes/";
  py "/suscrib"; py "/registro"; py "/inicio"; py "/ver"; py "/para-ti"
].

(** What the libraries hand to the pipeline. *)
Record FeedEntry := {
  entry_title : option str;
  entry_link : option str;
  entry_published : option str
}.

Record Anchor := {
  href : str;
  get_text : str
}.

Record ParseResult := {
  scheme : str;
  netloc : str;
  path : str
}.

(** The world outside the process.  Network answers and the clock depend on
    the instant of the call, counted in calls made so far.
    [utf8_encode_error s] is the [UnicodeEncodeError] that
    [s.encode("utf-8")] raises, if any: it raises exactly on a string with a
    lone surrogate.  A SHA-256 digest in hexadecimal has 64 characters. *)
Record World := {
  feedparser_parse : nat → str → list FeedEntry;
  httpx_get : nat → str → Result (Z * str * str);
  select_a_href : str → list Anchor;
  trafilatura_extract : str → Result (option str);
  urlparse : str → ParseResult;
  utcnow_isoformat : nat → str;
  utf8_encode_error : str → option Exception;
  utf8_encode_error_surrogate :
    ∀ s, utf8_encode_error s = None ↔ no_surrogate s = true;
  sha256_hexdigest : str → str;
  sha256_hexdigest_length : ∀ s, length (sha256_hexdigest s) = 64%nat
}.

(** A discovered link: the dict with keys [title], [url], [published]. *)
Record Candidate := {
  c_title : str;
  c_url : str;
  c_published : str
}.

(** A row of the debug snapshot [probe.json]; [None] is JSON [null], and
    [error] is absent from the rows of successful extractions. *)
Record ProbeRow := {
  p_source : str;
  p_source_type : str;
  p_rss_or_list_url : str;
  p_title : str;
  p_url : str;
  p_published : str;
  p_http_status : option Z;
  p_final_url : option str;
  p_domain : option str;
  p_extracted_chars : Z;
  p_extract_ok : bool;
  p_content_hash : str;
  p_text_preview : str;
  p_error : option str
}.

(** The calls the run makes on the store and on the network, in order. *)
Inductive Event :=
| EvListing (u : str)
| EvHasUrl (u : str) (answer : bool)
| EvFetch (u : str)
| EvUpsert (u : str) (res : str)
| EvUpsertRaised (u : str).

#[global] Instance Event_eq_dec : EqDecision Event.
Proof. solve_decision. Defined.

(** The local variables of [main], the database, the clock and the log of
    calls. *)
Record RunState := {
  db : SQLiteStore;
  rows_probe : list ProbeRow;
  total_candidates : Z;
  stored_new : Z;
  stored_updated : Z;
  skipped_existing : Z;
  extract_ok : Z;
  tick : nat;
  trace : list Event
}.

Definition set_db (d : SQLiteStore) (s : RunState) : RunState :=
  {| db := d; rows_probe := rows_probe s; total_candidates := total_candidates s;
     stored_new := stored_new s; stored_updated := stored_updated s;
     skipped_existing := skipped_existing s; extract_ok := extract_ok s;
     tick := tick s; trace := trace s |}.

Definition append_probe (r : ProbeRow) (s : RunState) : RunState :=
  {| db := db s; rows_probe := rows_probe s ++ [r]; total_candidates := total_candidates s;
     stored_new := stored_new s; stored_updated := stored_updated s;
     skipped_existing := skipped_existing s; extract_ok := extract_ok s;
     tick := tick s; trace := trace s |}.

Definition incr_total_candidates (s : RunState) : RunState :=
  {| db := db s; rows_probe := rows_probe s; total_candidates := total_candidates s + 1;
     stored_new := stored_new s; stored_updated := stored_updated s;
     skipped_existing := skipped_existing s; extract_ok := extract_ok s;
     tick := tick s; trace := trace s |}.

Definition incr_stored_new (s : RunState) : RunState :=
  {| db := db s; rows_probe := rows_probe s; total_candidates := total_candidates s;
     stored_new := stored_new s + 1; stored_updated := stored_updated s;
     skipped_existing := skipped_existing s; extract_ok := extract_ok s;
     tick := tick s; trace := trace s |}.

Definition incr_stored_updated (s : RunState) : RunState :=
  {| db := db s; rows_probe := rows_probe s; total_candidates := total_candidates s;
     stored_new := stored_new s; stored_updated := stored_updated s + 1;
     skipped_existing := skipped_existing s; extract_ok := extract_ok s;
     tick := tick s; trace := trace s |}.

Definition incr_skipped_existing (s : RunState) : RunState :=
  {| db := db s; rows_probe := rows_probe s; total_candidates := total_candidates s;
     stored_new := stored_new s; stored_updated := stored_updated s;
     skipped_existing := skipped_existing s + 1; extract_ok := extract_ok s;
     tick := tick s; trace := trace s |}.

Definition incr_extract_ok (s : RunState) : RunState :=
  {| db := db s; rows_probe := rows_probe s; total_candidates := total_candidates s;
     stored_new := stored_new s; stored_updated := stored_updated s;
     skipped_existing := skipped_existing s; extract_ok := extract_ok s + 1;
     tick := tick s; trace := trace s |}.

(** One call to the outside: the clock advances and the call is logged. *)
Definition advance (s : RunState) : RunState :=
  {| db := db s; rows_probe := rows_probe s; total_candidates := total_candidates s;
     stored_new := stored_new s; stored_updated := stored_updated s;
     skipped_existing := skipped_existing s; extract_ok := extract_ok s;
     tick := S (tick s); trace := trace s |}.

Definition log (e : Event) (s : RunState) : RunState :=
  {| db := db s; rows_probe := rows_probe s; total_candidates := total_candidates s;
     stored_new := stored_new s; stored_updated := stored_updated s;
     skipped_existing := skipped_existing s; extract_ok := extract_ok s;
     tick := tick s; trace := trace s ++ [e] |}.

Section world.
Context `{Unicode} `{Sqlite3} (w : World).

(** The digest of the first 5000 characters of the normalised text; the
    encoding raises when these hold a lone surrogate. *)
Definition sha (text : str) : Result str :=
  let t := join [SPACE] (split (lower (or_str text []))) in
  match utf8_encode_error w (slice_to 5000 t) with
  | Some ex => Raise ex
  | None => Ok (sha256_hexdigest w (slice_to 5000 t))
  end.

(** [sha(text) if text else ""]. *)
Definition content_hash_of (text : str) : Result str :=
  match text with [] => Ok [] | _ => sha text end.

(** [fetch(url)] at instant [t]: status code, final URL, body. *)
Definition fetch (t : nat) (url : str) : Result (Z * str * str) :=
  httpx_get w t url.

Definition extract_text (html : str) : Result str :=
  match trafilatura_extract w html with
  | Raise ex => Raise ex
  | Ok o => Ok (strip (opt_or_str o []))
  end.

Definition looks_like_combat_sports (title url : str) : bool :=
  let s := lower (title ++ [SPACE] ++ url) in
  if any_in STOPWORDS_URL s then false
  else any_in KEYWORDS_MMA s || any_in KEYWORDS_BOX s.

Definition get_urls_from_rss (t : nat) (feed_url : str) (limit : Z) : list Candidate :=
  (λ e, {| c_title := opt_or_str (entry_title e) [];
           c_url := opt_or_str (entry_link e) [];
           c_published := opt_or_str (entry_published e) [] |})
  <$> slice_to limit (feedparser_parse w t feed_url).

(** The body of the loop over the anchors of a listing page: the candidate
    the anchor contributes, if it passes every test. *)
Definition anchor_candidate (final_url : str) (a : Anchor) : option Candidate :=
  let href0 := href a in
  let text := strip (or_str (get_text a) []) in
  if bool_decide (href0 = []) || (Z.of_nat (length text) <? 18) then None
  else
    let href1 :=
      if startswith (py "/") href0
      then scheme (urlparse w final_url) ++ py "://" ++ netloc (urlparse w final_url) ++ href0
      else href0 in
    if negb (startswith (py "http") href1) then None
    else
      let href_l := lower href1 in
      if existsb (λ ext, endswith ext href_l)
           [py ".jpg"; py ".png"; py ".svg"; py ".css"; py ".js"; py ".webp";
            py ".mp4"; py ".woff"; py ".woff2"]
      then None
      else if any_in
           [py "/inicio"; py "/ver"; py "/para-ti"; py "/suscrib"; py "/registro";
            py "/deportes"; py "/resultados"; py "/calendario"; py "/medallero";
            py "/equipo"] href_l
      then None
      else if count_char SLASH href_l <? 4 then None
      else Some {| c_title := text; c_url := href1; c_published := [] |}.

(** The dedupe loop: first occurrences in order, stopping once [out] has
    [limit] entries (the test comes after the append). *)
Fixpoint dedupe (limit : Z) (seen : gset str) (out : list Candidate)
    (candidates : list Candidate) : list Candidate :=
  match candidates with
  | [] => out
  | c :: rest =>
    if bool_decide (c_url c ∈ seen) then dedupe limit seen out rest
    else
      let out' := out ++ [c] in
      if limit <=? Z.of_nat (length out') then out'
      else dedupe limit ({[c_url c]} ∪ seen) out' rest
  end.

(** The candidates kept from the anchors of a fetched listing page. *)
Definition listing_candidates (final_url html : str) (limit : Z) : list Candidate :=
  dedupe limit ∅ [] (omap (anchor_candidate final_url) (select_a_href w html)).

Definition get_urls_from_html_list (t : nat) (list_url : str) (limit : Z)
    : Result (list Candidate) :=
  match fetch t list_url with
  | Raise ex => Raise ex
  | Ok (status, final_url, html) => Ok (listing_candidates final_url html limit)
  end.

(** The keys every debug row starts with. *)
Definition base_row (src : Sources.Source) (it : Candidate) : ProbeRow :=
  {| p_source := Sources.name src;
     p_source_type := Sources.type src;
     p_rss_or_list_url := Sources.url src;
     p_title := c_title it;
     p_url := c_url it;
     p_published := c_published it;
     p_http_status := None; p_final_url := None; p_domain := None;
     p_extracted_chars := 0; p_extract_ok := false; p_content_hash := [];
     p_text_preview := []; p_error := None |}.

(** [row.update({...})] of the [except] branch. *)
Definition error_row (row : ProbeRow) (ex : Exception) : ProbeRow :=
  {| p_source := p_source row;
     p_source_type := p_source_type row;
     p_rss_or_list_url := p_rss_or_list_url row;
     p_title := p_title row;
     p_url := p_url row;
     p_published := p_published row;
     p_http_status := None;
     p_final_url := None;
     p_domain := None;
     p_extracted_chars := 0;
     p_extract_ok := false;
     p_content_hash := [];
     p_text_preview := [];
     p_error := Some (repr ex) |}.

(** [row.update({...})] of the [try] branch, with the [error] key of a short
    extraction; [hash] is the value of [sha(text) if text else ""]. *)
Definition fetched_row (row : ProbeRow) (status : Z)
    (final_url domain text hash : str) : ProbeRow :=
  let ok := MIN_CHARS <=? Z.of_nat (length text) in
  {| p_source := p_source row;
     p_source_type := p_source_type row;
     p_rss_or_list_url := p_rss_or_list_url row;
     p_title := p_title row;
     p_url := p_url row;
     p_published := p_published row;
     p_http_status := Some status;
     p_final_url := Some final_url;
     p_domain := Some domain;
     p_extracted_chars := Z.of_nat (length text);
     p_extract_ok := ok;
     p_content_hash := hash;
     p_text_preview := match text with [] => [] | _ => slice_to PREVIEW_CHARS text end;
     p_error := if ok then None else Some (py "Low extracted chars (<900).") |}.

(** [store.upsert_article(art)] and the two counters that follow it: the
    exception the call raised, if any, and the state it leaves. *)
Definition store_article (art : ArticleRow) (s : RunState)
    : option Exception * RunState :=
  match upsert_article (db s) art with
  | (Raise ex, _) => (Some ex, log (EvUpsertRaised (Storage.url art)) s)
  | (Ok res, db') =>
    let s := log (EvUpsert (Storage.url art) res) (set_db db' s) in
    (None,
     if bool_decide (res = py "new") then incr_stored_new s
     else if bool_decide (res = py "updated") then incr_stored_updated s
     else s)
  end.

(** The body of [for it in items].  The hash is computed before the row is
    updated, and [extract_ok] is incremented before [upsert_article] is
    called, all inside the [try]: when [sha] or [upsert_article] raises, the
    [except] branch overwrites the keys of the row. *)
Definition process_item (src : Sources.Source) (it : Candidate) (s : RunState) : RunState :=
  let s := incr_total_candidates s in
  let title := c_title it in
  let url := c_url it in
  if negb (looks_like_combat_sports title url) then s
  else if has_url (db s) url
  then incr_skipped_existing (log (EvHasUrl url true) s)
  else
    let s := log (EvHasUrl url false) s in
    let row := base_row src it in
    let r := fetch (tick s) url in
    let s := advance (log (EvFetch url) s) in
    match r with
    | Raise ex => append_probe (error_row row ex) s
    | Ok (status, final_url, html) =>
      match extract_text html with
      | Raise ex => append_probe (error_row row ex) s
      | Ok text =>
        let domain := netloc (urlparse w final_url) in
        let fetched_at := utcnow_isoformat w (tick s) in
        let s := advance s in
        match content_hash_of text with
        | Raise ex => append_probe (error_row row ex) s
        | Ok hash =>
          let row := fetched_row row status final_url domain text hash in
          if p_extract_ok row
          then
            match store_article
                    {| Storage.url := url;
                       final_url := final_url;
                       title := title;
                       source := Sources.name src;
                       published := p_published row;
                       domain := domain;
                       fetched_at := fetched_at;
                       extracted_chars := Z.of_nat (length text);
                       content_hash := p_content_hash row;
                       text := text |}
                    (incr_extract_ok s) with
            | (Some ex, s) => append_probe (error_row row ex) s
            | (None, s) => append_probe row s
            end
          else append_probe row s
        end
      end
    end.

Definition process_items (src : Sources.Source) (items : list Candidate) (s : RunState)
    : RunState :=
  foldl (λ s it, process_item src it s) s items.

(** The body of [for src in SOURCES]: discovery, then the candidates.  An
    exception of the listing fetch is not caught. *)
Definition process_source (per_source_limit : Z) (src : Sources.Source) (s : RunState)
    : RunState * option Exception :=
  if bool_decide (Sources.type src = py "rss")
  then
    let items := get_urls_from_rss (tick s) (Sources.url src) per_source_limit in
    (process_items src items (advance s), None)
  else if bool_decide (Sources.type src = py "html_list")
  then
    let r := get_urls_from_html_list (tick s) (Sources.url src) (per_source_limit * 2) in
    let s := advance (log (EvListing (Sources.url src)) s) in
    match r with
    | Raise ex => (s, Some ex)
    | Ok items => (process_items src items s, None)
    end
  else (s, None).

Fixpoint process_sources (per_source_limit : Z) (srcs : list Sources.Source)
    (s : RunState) : RunState * option Exception :=
  match srcs with
  | [] => (s, None)
  | src :: rest =>
    match process_source per_source_limit src s with
    | (s', Some ex) => (s', Some ex)
    | (s', None) => process_sources per_source_limit rest s'
    end
  end.

(** What a run leaves behind: the state when it ended, the uncaught
    exception if it was aborted, and the entries of the generated page. *)
Record Outcome := {
  final : RunState;
  uncaught : option Exception;
  site : list Sitegen.Item
}.

(** [main], started at instant [t0] on the database [db0]. *)
Definition main (db0 : SQLiteStore) (t0 : nat) (per_source_limit : Z) : Outcome :=
  let run_id := utcnow_isoformat w t0 in
  let started_at := run_id in
  let s0 :=
    {| db := db0; rows_probe := []; total_candidates := 0; stored_new := 0;
       stored_updated := 0; skipped_existing := 0; extract_ok := 0;
       tick := S t0; trace := [] |} in
  match process_sources per_source_limit Sources.SOURCES s0 with
  | (s, Some ex) => {| final := s; uncaught := Some ex; site := [] |}
  | (s, None) =>
    let finished_at := utcnow_isoformat w (tick s) in
    let s := advance s in
    let s :=
      set_db (record_run (db s)
                {| run_id := run_id; started_at := started_at;
                   finished_at := finished_at;
                   run_total_candidates := total_candidates s;
                   run_stored_new := stored_new s;
                   run_stored_updated := stored_updated s;
                   run_skipped_existing := skipped_existing s;
                   run_extract_ok := extract_ok s |}) s in
    let recent := list_recent (db s) 14 2000 in
    {| final := s; uncaught := None; site := Sitegen.build_index recent |}
  end.
End world.

(** A simple [urlparse] for absolute URLs [scheme://netloc/path?query#fragment],
    and a world built on it, to run the pipeline on concrete inputs. *)
Fixpoint until_any (stops : list N) (s : str) : str * str :=
  match s with
  | [] => ([], [])
  | c :: s' =>
    if bool_decide (c ∈ stops) then ([], s)
    else let '(a, b) := until_any stops s' in (c :: a, b)
  end.

Definition simple_urlparse (u : str) : ParseResult :=
  let '(sch, rest) := until_any [58%N] u in
  let rest := if startswith (py "://") rest then drop 3 rest else rest in
  let '(loc, rest) := until_any [47%N; 63%N; 35%N] rest in
  let '(pth, _) := until_any [63%N; 35%N] rest in
  {| scheme := sch; netloc := loc; path := pth |}.

End Run.

(** ** Concrete data on which the functions are run *)
Module Demo.
Import Storage.

Definition row (u fetched hash : string) (n : Z) : ArticleRow :=
  {| url := py u; final_url := py u; title := py "UFC 300: Topuria retains title";
     source := py "marca_portada"; published := []; domain := py "example.com";
     fetched_at := py fetched; extracted_chars := n; content_hash := py hash;
     text := py "..." |}.

Definition one_row_db : SQLiteStore :=
  {| articles := [row "https://example.com/ufc-300-topuria" "2024-04-14T06:00:00+00:00" "ab12" 1200];
     runs := [] |}.

(** The same URL seen again with an edited title and a later fetch time. *)
Definition retitled : ArticleRow :=
  {| url := py "https://example.com/ufc-300-topuria";
     final_url := py "https://example.com/ufc-300-topuria";
     title := py "UFC 300: Topuria keeps the belt";
     source := py "marca_portada"; published := []; domain := py "example.com";
     fetched_at := py "2024-04-15T06:00:00+00:00"; extracted_chars := 1200;
     content_hash := py "ab12"; text := py "..." |}.

(** The same URL with a new hash and a longer text. *)
Definition rewritten : ArticleRow :=
  row "https://example.com/ufc-300-topuria" "2024-04-15T06:00:00+00:00" "cd34" 1300.

(** The same URL with a length that does not fit 64 bits. *)
Definition oversized : ArticleRow :=
  row "https://example.com/ufc-300-topuria" "2024-04-15T06:00:00+00:00" "ab12" (2 ^ 63).

Definition overflow_error : Exception :=
  {| repr := py "OverflowError('Python int too large to convert to SQLite INTEGER')" |}.

(** The string and the position of the offending character are left out of
    this [repr]. *)
Definition encode_error : Exception :=
  {| repr := py "UnicodeEncodeError('utf-8', 'surrogates not allowed')" |}.

(** A binding that raises on integers outside 64 bits and on strings with a
    lone surrogate, and on nothing else. *)
Definition sqlite3_bind_error (p : Param) : option Exception :=
  match p with
  | PInt n => if (- 2 ^ 63 <=? n) && (n <? 2 ^ 63) then None else Some overflow_error
  | PText s => if no_surrogate s then None else Some encode_error
  end.

Definition sqlite3 : Sqlite3.
Proof.
  refine {| bind_error := sqlite3_bind_error |}.
  - intros n. unfold sqlite3_bind_error.
    destruct (Z.leb_spec (- 2 ^ 63) n); destruct (Z.ltb_spec n (2 ^ 63)); simpl;
      split; (done || lia).
  - intros s Hs. unfold sqlite3_bind_error. by rewrite Hs.
Defined.

(** A world with one feed entry and one listing anchor.  The page of the
    feed entry yields a thousand characters of text; the download of the
    anchor's page fails. *)
Definition feed_link : str := py "https://example.com/ufc-300-topuria".
Definition listing_url : str := py "https://www.dazn.com/es-ES/news".
Definition anchor_link : str := py "https://www.dazn.com/noticias/topuria-gana-en-ufc".
Definition connect_error : Exception := {| repr := py "ConnectError('timed out')" |}.

(** [s.encode("utf-8")] in these worlds. *)
Definition utf8_error (s : str) : option Exception :=
  if no_surrogate s then None else Some encode_error.

(** The world in which the page of the feed entry yields the text
    [extracted]. *)
Definition world_with (extracted : str) : Run.World.
Proof.
  refine
    {| Run.feedparser_parse := λ _ _,
         [ {| Run.entry_title := Some (py "UFC 300: Topuria retains title");
              Run.entry_link := Some feed_link;
              Run.entry_published := None |} ];
       Run.httpx_get := λ _ u,
         if bool_decide (u = anchor_link) then Raise connect_error
         else Ok (200, u, u);
       Run.select_a_href := λ html,
         if bool_decide (html = listing_url)
         then [ {| Run.href := py "/noticias/topuria-gana-en-ufc";
                   Run.get_text := py "Topuria gana por KO en UFC 300" |} ]
         else [];
       Run.trafilatura_extract := λ html,
         if bool_decide (html = feed_link) then Ok (Some extracted)
         else Ok None;
       Run.urlparse := Run.simple_urlparse;
       Run.utcnow_isoformat := λ _, py "2024-04-14T06:00:00+00:00";
       Run.utf8_encode_error := utf8_error;
       Run.sha256_hexdigest := λ _, replicate 64 48%N;
       Run.sha256_hexdigest_length := λ _, eq_refl |}.
  intros s. unfold utf8_error. destruct (no_surrogate s); split; done.
Defined.

Definition world : Run.World := world_with (replicate 1000 97%N).

Definition marca : Sources.Source :=
  {| Sources.name := py "marca_portada"; Sources.type := py "rss";
     Sources.url := py "https://e00-marca.uecdn.es/rss/portada.xml";
     Sources.sport_hint := py "mixed" |}.


Definition feed_candidate : Run.Candidate :=
  {| Run.c_title := py "UFC 300: Topuria retains title"; Run.c_url := feed_link;
     Run.c_published := [] |}.

Definition anchor_candidate : Run.Candidate :=
  {| Run.c_title := py "Topuria gana por KO en UFC 300"; Run.c_url := anchor_link;
     Run.c_published := [] |}.

(** The row a first run in this world stores, and the database it leaves. *)
Definition stored_row : ArticleRow :=
  {| url := feed_link; final_url := feed_link;
     title := py "UFC 300: Topuria retains title";
     source := py "marca_portada"; published := []; domain := py "example.com";
     fetched_at := py "2024-04-14T06:00:00+00:00"; extracted_chars := 1000;
     content_hash := replicate 64 48%N; text := replicate 1000 97%N |}.

Definition after_first_run : SQLiteStore :=
  Run.db (Run.final (@Run.main latin1 sqlite3 world empty_db 0 30)).


(** The same world, but the page of the feed entry yields five thousand
    characters followed by a lone surrogate; and the world in which it
    yields a lone surrogate followed by a thousand characters. *)
Definition surrogate_text : str := replicate 5000 97%N ++ [56448%N].

Definition surrogate_world : Run.World := world_with surrogate_text.

Definition early_surrogate_world : Run.World :=
  world_with (56448%N :: replicate 1000 97%N).

(** The state of [main] before the first source. *)
Definition start (db0 : SQLiteStore) : Run.RunState :=
  {| Run.db := db0; Run.rows_probe := []; Run.total_candidates := 0;
     Run.stored_new := 0; Run.stored_updated := 0; Run.skipped_existing := 0;
     Run.extract_ok := 0; Run.tick := 1; Run.trace := [] |}.

End Demo.

(** ** Vocabulary of the statements *)



(** Every candidate download in the log comes right after a negative answer
    of [has_url] for the same URL. *)
Definition fetch_guarded (tr : list Run.Event) : Prop :=
  ∀ pre u post, tr = pre ++ Run.EvFetch u :: post →
    ∃ pre', pre = pre' ++ [Run.EvHasUrl u false].

(** What holds of a stored row: the text met the length threshold and the
    hash is not empty. *)
Definition row_ok (r : Storage.ArticleRow) : Prop :=
  Run.MIN_CHARS ≤ Storage.extracted_chars r ∧ Storage.content_hash r ≠ [].

(** The events of the log that are positive answers of [has_url], and the
    calls to [upsert_article] that raised. *)
Definition answered_true (e : Run.Event) : bool :=
  match e with Run.EvHasUrl _ true => true | _ => false end.

Definition upsert_raised (e : Run.Event) : bool :=
  match e with Run.EvUpsertRaised _ => true | _ => false end.

(** Once [has_url] has answered true for a URL, the rest of the log holds
    neither a download of that URL nor a negative answer for it. *)
Definition skip_final (tr : list Run.Event) : Prop :=
  ∀ pre u post, tr = pre ++ Run.EvHasUrl u true :: post →
    (Run.EvFetch u ∉ post) ∧ (Run.EvHasUrl u false ∉ post).

(** What a run keeps true of its state, started on the database [db0]:
    downloads are guarded, a URL stored at the start stays stored and is
    never downloaded, rows stay well-formed, a URL answered for positively
    is in the database and is left alone from then on, and
    [skipped_existing] counts the positive answers. *)
Definition run_invariant (db0 : Storage.SQLiteStore) (s : Run.RunState) : Prop :=
  fetch_guarded (Run.trace s)
  ∧ (∀ u, Storage.has_url db0 u = true →
       Storage.has_url (Run.db s) u = true ∧ Run.EvFetch u ∉ Run.trace s)
  ∧ (Forall row_ok (Storage.articles db0) →
     Forall row_ok (Storage.articles (Run.db s)))
  ∧ (∀ u, Run.EvHasUrl u true ∈ Run.trace s → Storage.has_url (Run.db s) u = true)
  ∧ skip_final (Run.trace s)
  ∧ Run.skipped_existing s
    = Z.of_nat (length (filter (λ e, answered_true e = true) (Run.trace s))).

(** The HTML entity that stands for a character in escaped text. *)
Definition html_entity (c : N) : str :=
  if (c =? 38)%N then py "&amp;"
  else if (c =? 60)%N then py "&lt;"
  else if (c =? 62)%N then py "&gt;"
  else [c].

(** A debug row is either the row of a stored article (long enough text, no
    error), or carries an error; its three network fields are null together. *)
Definition probe_row_consistent (row : Run.ProbeRow) : Prop :=
  (Run.p_extract_ok row = true ↔ Run.p_error row = None)
  ∧ (Run.p_extract_ok row = true → Run.MIN_CHARS ≤ Run.p_extracted_chars row)
  ∧ (Run.p_http_status row = None ↔ Run.p_final_url row = None)
  ∧ (Run.p_http_status row = None ↔ Run.p_domain row = None)
  ∧ (Run.p_http_status row = None →
     Run.p_extracted_chars row = 0 ∧ Run.p_extract_ok row = false).

(** How the counters of a run, its debug rows, its log and the database
    relate, started on the database [db0]. *)
Definition run_accounting (db0 : Storage.SQLiteStore) (s : Run.RunState) : Prop :=
  Run.stored_updated s = 0
  ∧ Run.stored_new s
    = Z.of_nat (length (filter (λ row, Run.p_extract_ok row = true) (Run.rows_probe s)))
  ∧ Run.extract_ok s
    = Run.stored_new s
      + Z.of_nat (length (filter (λ e, upsert_raised e = true) (Run.trace s)))
  ∧ 0 ≤ Run.skipped_existing s
  ∧ Run.skipped_existing s + Z.of_nat (length (Run.rows_probe s))
    ≤ Run.total_candidates s
  ∧ (∃ added, Storage.articles (Run.db s) = Storage.articles db0 ++ added
       ∧ Z.of_nat (length added) = Run.stored_new s)
  ∧ Storage.runs (Run.db s) = Storage.runs db0
  ∧ Forall probe_row_consistent (Run.rows_probe s)
  ∧ (∀ u res, Run.EvUpsert u res ∈ Run.trace s → res = py "new").

(** The databases that runs of the pipeline produce from an empty one, in
    any world, from any instant, with any limit, aborted runs included. *)
Inductive reachable `{Unicode} `{Storage.Sqlite3} : Storage.SQLiteStore → Prop :=
| reachable_empty : reachable Storage.empty_db
| reachable_run (w : Run.World) (db0 : Storage.SQLiteStore) (t0 : nat) (limit : Z) :
    reachable db0 → reachable (Run.db (Run.final (Run.main w db0 t0 limit))).

(** * Properties *)

(** ** The article store *)
Section storage_facts.
Import Storage.

Lemma or_str_empty (x : str) : or_str x [] = x.
Proof. by destruct x. Qed.

Lemma or_int_zero (x : Z) : or_int x 0 = x.
Proof. unfold or_int. destruct (Z.eqb_spec x 0); congruence. Qed.

Lemma results_distinct :
  py "new" ≠ py "updated" ∧ py "new" ≠ py "unchanged" ∧ py "updated" ≠ py "unchanged".
Proof. repeat split; intros E; vm_compute in E; discriminate E. Qed.

Section binding_facts.
Context `{Sqlite3}.

Lemma bind_params_None (ps : list Param) :
  bind_params ps = None ↔ Forall (λ p, bind_error p = None) ps.
Proof.
  induction ps as [|p ps IH]; simpl.
  - split; [intros _; apply Forall_nil_2 | done].
  - destruct (bind_error p) as [ex|] eqn:E.
    + split; [discriminate|]. intros Hall. apply Forall_cons_1 in Hall as [Hp _].
      congruence.
    + rewrite IH. split; [by apply Forall_cons_2|].
      intros Hall. by apply Forall_cons_1 in Hall as [_ ?].
Qed.

(** The [INSERT] and the [UPDATE] bind the same values. *)
Lemma update_params_None (a : ArticleRow) :
  bind_params (update_params a) = None ↔ bind_params (insert_params a) = None.
Proof.
  rewrite !bind_params_None. unfold update_params, insert_params.
  rewrite !Forall_cons. rewrite !Forall_nil. tauto.
Qed.

Lemma insert_params_url (a : ArticleRow) :
  bind_params (insert_params a) = None → bind_error (PText (url a)) = None.
Proof.
  rewrite bind_params_None. unfold insert_params. intros Hall.
  by apply Forall_cons_1 in Hall as [? _].
Qed.

(** What [upsert_article] does on a URL that has a row, with the two
    Python [or] defaults resolved. *)
Lemma upsert_article_existing (db : SQLiteStore) (a existing : ArticleRow) :
  get_by_url db (url a) = Some existing →
  upsert_article db a =
    match bind_error (PText (url a)) with
    | Some ex => (Raise ex, db)
    | None =>
      if bool_decide (content_hash existing = content_hash a)
         && bool_decide (extracted_chars existing = extracted_chars a)
      then (Ok (py "unchanged"), db)
      else
        match bind_params (update_params a) with
        | Some ex => (Raise ex, db)
        | None => (Ok (py "updated"), with_articles (update_row a <$> articles db) db)
        end
    end.
Proof.
  intros Hget. unfold upsert_article. cbn [bind_params].
  destruct (bind_error (PText (url a))); [done|].
  rewrite Hget. by rewrite !or_str_empty, or_int_zero.
Qed.

(** What [upsert_article] does on a URL that has no row: the [url] is the
    first value the [INSERT] binds. *)
Lemma upsert_article_absent (db : SQLiteStore) (a : ArticleRow) :
  get_by_url db (url a) = None →
  upsert_article db a =
    match bind_params (insert_params a) with
    | Some ex => (Raise ex, db)
    | None => (Ok (py "new"), with_articles (articles db ++ [a]) db)
    end.
Proof.
  intros Hget. unfold upsert_article.
  change (bind_params (insert_params a))
    with (match bind_error (PText (url a)) with
          | Some ex => Some ex
          | None => bind_params (tail (insert_params a))
          end).
  cbn [bind_params]. destruct (bind_error (PText (url a))); [done|].
  by rewrite Hget.
Qed.

(** A call that raises leaves the database as it was. *)
Lemma upsert_article_raise (db : SQLiteStore) (a : ArticleRow) (ex : Exception) :
  (upsert_article db a).1 = Raise ex → (upsert_article db a).2 = db.
Proof.
  unfold upsert_article. repeat case_match; simpl; done.
Qed.

End binding_facts.

Lemma find_url_app (rows : list ArticleRow) (a : ArticleRow) :
  find (λ r, bool_decide (url r = url a)) rows = None →
  find (λ r, bool_decide (url r = url a)) (rows ++ [a]) = Some a.
Proof.
  induction rows as [|r rows IH]; simpl.
  - intros _. by rewrite bool_decide_eq_true_2.
  - destruct (bool_decide (url r = url a)); [discriminate | exact IH].
Qed.

Lemma has_url_get_by_url (db : SQLiteStore) (u : str) :
  has_url db u = true ↔ is_Some (get_by_url db u).
Proof.
  unfold has_url, get_by_url.
  induction (articles db) as [|r rows IH]; simpl.
  - split; [discriminate | intros [? ?]; discriminate].
  - destruct (bool_decide (url r = u)); simpl; [|exact IH].
    split; eauto.
Qed.

Lemma has_url_elem_of (db : SQLiteStore) (u : str) :
  has_url db u = true ↔ ∃ r, r ∈ articles db ∧ url r = u.
Proof.
  unfold has_url. rewrite existsb_exists. split.
  - intros (r & Hin & Hu). exists r. split; [by apply list_elem_of_In|].
    by apply bool_decide_eq_true in Hu.
  - intros (r & Hin & Hu). exists r. split; [by apply list_elem_of_In|].
    by apply bool_decide_eq_true.
Qed.

Lemma get_by_url_Some (db : SQLiteStore) (u : str) (r : ArticleRow) :
  get_by_url db u = Some r → r ∈ articles db ∧ url r = u.
Proof.
  unfold get_by_url. intros Hfind. apply find_some in Hfind as [Hin Hu].
  split; [by apply list_elem_of_In | by apply bool_decide_eq_true in Hu].
Qed.

Lemma get_by_url_None (db : SQLiteStore) (u : str) :
  get_by_url db u = None ↔ has_url db u = false.
Proof.
  destruct (has_url_get_by_url db u) as [H1 H2].
  destruct (get_by_url db u) eqn:Hget, (has_url db u) eqn:Hhas; split; try done.
  - intros _. assert (is_Some (Some a)) as Hs by eauto.
    apply H2 in Hs. discriminate Hs.
  - intros _. destruct (H1 eq_refl) as [? ?]. discriminate.
Qed.

(** The order of [ORDER BY fetched_at DESC]. *)
Lemma str_leb_total (a b : str) : str_leb a b = true ∨ str_leb b a = true.
Proof.
  revert b. induction a as [|x a IH]; intros [|y b]; simpl; auto.
  destruct (N.ltb_spec x y); simpl; [auto|].
  destruct (N.ltb_spec y x); simpl; [auto|].
  assert (x = y) as -> by lia. rewrite N.eqb_refl. simpl. apply IH.
Qed.

Lemma str_leb_trans (a b c : str) :
  str_leb a b = true → str_leb b c = true → str_leb a c = true.
Proof.
  revert b c. induction a as [|x a IH]; intros [|y b] [|z c]; simpl; try done.
  rewrite !orb_true_iff, !andb_true_iff, !N.ltb_lt, !N.eqb_eq.
  intros [Hxy|[-> Hab]] [Hyz|[-> Hbc]]; [left; lia | by left | by left |].
  right. split; [done|]. by eapply IH.
Qed.

#[local] Instance fetched_desc_total : Total fetched_desc.
Proof.
  intros a b. unfold fetched_desc.
  destruct (str_leb_total (fetched_at b) (fetched_at a)) as [E|E]; rewrite E; simpl; auto.
Qed.

#[local] Instance fetched_desc_trans : Transitive fetched_desc.
Proof.
  intros a b c. unfold fetched_desc. rewrite !Is_true_true.
  intros Hab Hbc. by eapply str_leb_trans.
Qed.

Section upsert_facts.
Context `{Sqlite3}.

(** C1 (as amended): on a URL that already has a row, [upsert_article]
    answers "updated" exactly when the incoming [content_hash] or
    [extracted_chars] differs from the stored one and SQLite can bind the
    values of the [UPDATE]; it answers "unchanged", and leaves the database
    as it was, exactly when both are equal and the [url] can be bound,
    whatever the other fields hold; in the cases left it raises the binding
    error and writes nothing; it never answers "new". *)
Theorem upsert_article_updated_iff (db : SQLiteStore) (a existing : ArticleRow) :
  get_by_url db (url a) = Some existing →
  let differs :=
    content_hash existing ≠ content_hash a
    ∨ extracted_chars existing ≠ extracted_chars a in
  ((upsert_article db a).1 = Ok (py "updated") ↔
     differs ∧ bind_params (update_params a) = None)
  ∧ ((upsert_article db a).1 = Ok (py "unchanged") ↔
     ¬ differs ∧ bind_error (PText (url a)) = None)
  ∧ (content_hash existing = content_hash a →
     extracted_chars existing = extracted_chars a →
     bind_error (PText (url a)) = None →
     upsert_article db a = (Ok (py "unchanged"), db))
  ∧ (∀ ex, (upsert_article db a).1 = Raise ex ↔
       bind_error (PText (url a)) = Some ex
       ∨ (bind_error (PText (url a)) = None ∧ differs
          ∧ bind_params (update_params a) = Some ex))
  ∧ (∀ ex, (upsert_article db a).1 = Raise ex → (upsert_article db a).2 = db)
  ∧ (upsert_article db a).1 ≠ Ok (py "new").
Proof.
  intros Hget differs.
  pose proof (upsert_article_existing _ _ _ Hget) as E.
  destruct results_distinct as (Hnu & Hnc & Huc).
  assert (bind_params (update_params a) = None →
          bind_error (PText (url a)) = None) as Hurl
    by (rewrite update_params_None; apply insert_params_url).
  assert (bool_decide (content_hash existing = content_hash a)
          && bool_decide (extracted_chars existing = extracted_chars a) = false
          ↔ differs) as Hd.
  { unfold differs. rewrite andb_false_iff, !bool_decide_eq_false. done. }
  destruct (bool_decide (content_hash existing = content_hash a)
            && bool_decide (extracted_chars existing = extracted_chars a)) eqn:Eeq.
  - assert (¬ differs) as Hsame by (rewrite <-Hd; done).
    apply andb_true_iff in Eeq as [Eh Ec].
    apply bool_decide_eq_true in Eh, Ec.
    destruct (bind_error (PText (url a))) as [exu|] eqn:Eu; rewrite E; cbn [fst snd].
    + split_and!; [split; [done|tauto] | split; [done|intros [_ ?]; done] | done
                   | | done | done].
      intros ex. split; [intros [= ->]; by left|].
      intros [[= ->]|(? & _)]; done.
    + split_and!; [split; [intros [= ?]; done|tauto] | done | done | | done
                   | intros [= ?]; done].
      intros ex. split; [done|]. intros [?|(_ & ? & _)]; done.
  - assert (differs) as Hdiff by (by apply Hd).
    destruct (bind_error (PText (url a))) as [exu|] eqn:Eu; rewrite E; cbn [fst snd].
    + split_and!; [split; [done|] | split; [done|tauto] | done | | done | done].
      * intros [_ Hb]. specialize (Hurl Hb). discriminate Hurl.
      * intros ex. split; [intros [= ->]; by left|].
        intros [[= ->]|(? & _)]; done.
    + destruct (bind_params (update_params a)) as [exp|] eqn:Ep; cbn [fst snd].
      * split_and!; [split; [done|intros [_ ?]; done] | split; [done|tauto]
                     | intros Eh Ec; destruct Hdiff; done | | done | done].
        intros ex. split; [intros [= ->]; by right|].
        intros [?|(_ & _ & [= ->])]; done.
      * split_and!; [done | split; [intros [= ?]; done|tauto]
                     | intros Eh Ec; destruct Hdiff; done | | done
                     | intros [= ?]; done].
        intros ex. split; [done|]. intros [?|(_ & _ & ?)]; done.
Qed.

(** C2 (as amended): on a URL without a row, when SQLite can bind the
    values of the article, the first [upsert_article] answers "new" and adds
    the row, and a second one with the same article answers "unchanged" and
    leaves the database exactly as the first left it; when a value cannot be
    bound, the first call raises the binding error and stores nothing. *)
Theorem upsert_article_twice (db : SQLiteStore) (a : ArticleRow) :
  get_by_url db (url a) = None →
  (bind_params (insert_params a) = None →
   let db1 := (upsert_article db a).2 in
   (upsert_article db a).1 = Ok (py "new")
   ∧ articles db1 = articles db ++ [a]
   ∧ upsert_article db1 a = (Ok (py "unchanged"), db1))
  ∧ (∀ ex, bind_params (insert_params a) = Some ex →
       upsert_article db a = (Raise ex, db) ∧ get_by_url db (url a) = None).
Proof.
  intros Hget. rewrite (upsert_article_absent _ _ Hget). split.
  - intros Hbind. rewrite Hbind. cbn [fst snd]. split; [done|]. split; [done|].
    assert (get_by_url (with_articles (articles db ++ [a]) db) (url a) = Some a) as Hget1.
    { unfold get_by_url. simpl. by apply find_url_app. }
    rewrite (upsert_article_existing _ _ _ Hget1).
    rewrite (insert_params_url _ Hbind).
    by rewrite !bool_decide_eq_true_2.
  - intros ex Hbind. by rewrite Hbind.
Qed.

End upsert_facts.

Lemma upsert_article_updated_iff_witness :
  get_by_url Demo.one_row_db (url Demo.rewritten)
  = Some (Demo.row "https://example.com/ufc-300-topuria" "2024-04-14T06:00:00+00:00" "ab12" 1200)
  ∧ (@upsert_article Demo.sqlite3 Demo.one_row_db Demo.rewritten).1 = Ok (py "updated").
Proof.
  assert (get_by_url Demo.one_row_db (url Demo.rewritten)
          = Some (Demo.row "https://example.com/ufc-300-topuria" "2024-04-14T06:00:00+00:00" "ab12" 1200))
    as Hget by (vm_compute; reflexivity).
  split; [exact Hget|].
  apply (@upsert_article_updated_iff Demo.sqlite3 _ _ _ Hget). split.
  - right. vm_compute. discriminate.
  - vm_compute; reflexivity.
Defined.

(** C1 (as stated) fails for a length that does not fit 64 bits: the stored
    row has 1200 characters, the incoming one 2^63, and the call raises
    [OverflowError] where "updated" is claimed; the row is left as it was. *)
Lemma upsert_article_oversized_not_updated :
  get_by_url Demo.one_row_db (url Demo.oversized)
  = Some (Demo.row "https://example.com/ufc-300-topuria" "2024-04-14T06:00:00+00:00" "ab12" 1200)
  ∧ extracted_chars (Demo.row "https://example.com/ufc-300-topuria" "2024-04-14T06:00:00+00:00" "ab12" 1200)
    ≠ extracted_chars Demo.oversized
  ∧ @upsert_article Demo.sqlite3 Demo.one_row_db Demo.oversized
    = (Raise Demo.overflow_error, Demo.one_row_db)
  ∧ (@upsert_article Demo.sqlite3 Demo.one_row_db Demo.oversized).1 ≠ Ok (py "updated").
Proof.
  assert (@upsert_article Demo.sqlite3 Demo.one_row_db Demo.oversized
          = (Raise Demo.overflow_error, Demo.one_row_db)) as E
    by (vm_compute; reflexivity).
  split_and!; [vm_compute; reflexivity | vm_compute; discriminate | exact E |].
  rewrite E. discriminate.
Qed.

Lemma upsert_article_twice_witness :
  (@upsert_article Demo.sqlite3 Storage.empty_db Demo.retitled).1 = Ok (py "new")
  ∧ articles (@upsert_article Demo.sqlite3 Storage.empty_db Demo.retitled).2
    = articles Storage.empty_db ++ [Demo.retitled]
  ∧ @upsert_article Demo.sqlite3
      (@upsert_article Demo.sqlite3 Storage.empty_db Demo.retitled).2 Demo.retitled
    = (Ok (py "unchanged"), (@upsert_article Demo.sqlite3 Storage.empty_db Demo.retitled).2).
Proof.
  apply (@upsert_article_twice Demo.sqlite3 Storage.empty_db Demo.retitled).
  - vm_compute; reflexivity.
  - vm_compute; reflexivity.
Defined.

(** C2 (as stated) fails for a length that does not fit 64 bits: on the
    empty store the first call raises [OverflowError] where "new" is
    claimed, and no row is stored. *)
Lemma upsert_article_oversized_not_new :
  get_by_url Storage.empty_db (url Demo.oversized) = None
  ∧ @upsert_article Demo.sqlite3 Storage.empty_db Demo.oversized
    = (Raise Demo.overflow_error, Storage.empty_db)
  ∧ (@upsert_article Demo.sqlite3 Storage.empty_db Demo.oversized).1 ≠ Ok (py "new").
Proof.
  assert (@upsert_article Demo.sqlite3 Storage.empty_db Demo.oversized
          = (Raise Demo.overflow_error, Storage.empty_db)) as E
    by (vm_compute; reflexivity).
  split_and!; [vm_compute; reflexivity | exact E |].
  rewrite E. discriminate.
Qed.

Lemma sql_limit_prefix {A} (limit : Z) (rows : list A) :
  ∃ rest, sql_limit limit rows ++ rest = rows.
Proof.
  unfold sql_limit. destruct (limit <? 0).
  - exists []. by rewrite app_nil_r.
  - exists (drop (Z.to_nat limit) rows). apply take_drop.
Qed.




End storage_facts.

(** ** Substring tests *)
Section substring_facts.

Lemma startswith_prefix (k s : str) : startswith k s = true ↔ k `prefix_of` s.
Proof.
  revert s. induction k as [|x k IH]; intros [|y s]; simpl.
  - split; [intros _; apply prefix_nil | done].
  - split; [intros _; apply prefix_nil | done].
  - split; [done | intros Hp; by apply prefix_nil_inv in Hp].
  - rewrite andb_true_iff, N.eqb_eq, IH. split.
    + intros [-> Hp]. by apply prefix_cons.
    + intros Hp. split; [by apply prefix_cons_inv_1 in Hp | by apply prefix_cons_inv_2 in Hp].
Qed.


Lemma contains_occurs (k s : str) : contains k s = true ↔ occurs k s.
Proof.
  induction s as [|y s IH]; simpl.
  - rewrite orb_false_r, startswith_prefix. split.
    + intros [l ->]. by exists [], l.
    + intros (l1 & l2 & E). symmetry in E.
      apply app_eq_nil in E as [-> E]. apply app_eq_nil in E as [-> _].
      apply prefix_nil.
  - rewrite orb_true_iff, startswith_prefix, IH. split.
    + intros [[l ->]|(l1 & l2 & ->)]; [by exists [], l | by exists (y :: l1), l2].
    + intros ([|z l1] & l2 & E); simpl in E.
      * left. exists l2. done.
      * right. injection E as -> ->. by exists l1, l2.
Qed.

Lemma occurs_app_l (k s t : str) : occurs k s → occurs k (s ++ t).
Proof. intros (l1 & l2 & ->). exists l1, (l2 ++ t). by rewrite <-!(assoc_L (++)). Qed.

Lemma occurs_app_r (k s t : str) : occurs k t → occurs k (s ++ t).
Proof. intros (l1 & l2 & ->). exists (s ++ l1), l2. by rewrite <-!(assoc_L (++)). Qed.




Lemma any_in_true (ks : list str) (s : str) :
  any_in ks s = true ↔ ∃ k, k ∈ ks ∧ occurs k s.
Proof.
  unfold any_in. rewrite existsb_exists. split.
  - intros (k & Hin & Hk). exists k. split; [by apply list_elem_of_In|].
    by apply contains_occurs.
  - intros (k & Hin & Hk). exists k. split; [by apply list_elem_of_In|].
    by apply contains_occurs.
Qed.

Context `{Unicode}.

Lemma lower_app (a b : str) : lower (a ++ b) = lower a ++ lower b.
Proof. apply bind_app. Qed.

Lemma lower_space : lower [SPACE] = [SPACE].
Proof. unfold lower. rewrite bind_singleton. apply lower_cp_space. Qed.

Lemma lower_fields (a b c : str) :
  lower (a ++ [SPACE] ++ b ++ [SPACE] ++ c)
  = lower a ++ [SPACE] ++ lower b ++ [SPACE] ++ lower c.
Proof. by rewrite !lower_app, !lower_space. Qed.

End substring_facts.

(** ** The topic filter and the classifier *)
Section classifier_facts.
Context `{Unicode}.
Import Sitegen.


Lemma any_in_app (ks1 ks2 : list str) (s : str) :
  any_in (ks1 ++ ks2) s = any_in ks1 s || any_in ks2 s.
Proof. apply existsb_app. Qed.

Lemma any_in_mono (ks : list str) (s t : str) :
  any_in ks s = true → any_in ks (s ++ t) = true.
Proof.
  rewrite !any_in_true. intros (k & Hin & Hk). exists k.
  split; [done | by apply occurs_app_l].
Qed.

(** The two verdicts behind [classify_sport]. *)
Lemma classify_sport_cases (title url text : str) :
  let s := lower (title ++ [SPACE] ++ url ++ [SPACE] ++ text) in
  classify_sport title url text =
    match any_in KEYWORDS_MMA s, any_in KEYWORDS_BOX s with
    | true, false => py "MMA"
    | false, true => py "Boxeo"
    | true, true => py "Mixto"
    | false, false => py "Otro"
    end.
Proof.
  intros s. unfold classify_sport. cbv zeta. fold s.
  by destruct (any_in KEYWORDS_MMA s), (any_in KEYWORDS_BOX s).
Qed.

Lemma classify_sport_otro (title url text : str) :
  let s := lower (title ++ [SPACE] ++ url ++ [SPACE] ++ text) in
  classify_sport title url text = py "Otro" ↔
  any_in KEYWORDS_MMA s = false ∧ any_in KEYWORDS_BOX s = false.
Proof.
  intros s. rewrite classify_sport_cases. fold s.
  destruct (any_in KEYWORDS_MMA s), (any_in KEYWORDS_BOX s);
    (split; [intros E; vm_compute in E; discriminate E || done | intros [? ?]; done]).
Qed.

(** C10: the topic filter of [funcoina.py] and the one of [pipeline/run.py]
    have the same keyword and stopword lists and return the same boolean on
    every title and URL. *)
Theorem looks_like_combat_sports_agree (title url : str) :
  Funcoina.KEYWORDS_MMA = Run.KEYWORDS_MMA
  ∧ Funcoina.KEYWORDS_BOX = Run.KEYWORDS_BOX
  ∧ Funcoina.STOPWORDS_URL = Run.STOPWORDS_URL
  ∧ Funcoina.looks_like_combat_sports title url
    = Run.looks_like_combat_sports title url.
Proof. split_and!; reflexivity. Qed.

Lemma run_keywords_box :
  Run.KEYWORDS_BOX
  = take 5 KEYWORDS_BOX ++ [py "peso pluma"; py "peso welter"; py "peso medio"]
    ++ drop 5 KEYWORDS_BOX.
Proof. reflexivity. Qed.

(** C4 (as amended): when the filter accepts (title, url) and the lowercased
    "title url" contains a keyword of the classifier's own lists, no text
    makes [classify_sport] answer "Otro"; and it answers "Otro" on an
    accepted pair only if the pair contains one of the three weight-class
    phrases, which the filter's boxing list has and the classifier's lacks. *)
Theorem classify_sport_after_filter (title url text : str) :
  Run.looks_like_combat_sports title url = true →
  let s := lower (title ++ [SPACE] ++ url) in
  (any_in (KEYWORDS_MMA ++ KEYWORDS_BOX) s = true →
   classify_sport title url text ≠ py "Otro")
  ∧ (classify_sport title url text = py "Otro" →
     any_in [py "peso pluma"; py "peso welter"; py "peso medio"] s = true).
Proof.
  intros Hlooks s.
  assert (lower (title ++ [SPACE] ++ url ++ [SPACE] ++ text)
          = s ++ lower ([SPACE] ++ text)) as Es.
  { unfold s. by rewrite <-lower_app, <-!(assoc_L (++)). }
  assert (∀ ks, any_in ks s = true →
            any_in ks (lower (title ++ [SPACE] ++ url ++ [SPACE] ++ text)) = true)
    as Hmono.
  { intros ks. rewrite Es. apply any_in_mono. }
  split.
  - rewrite any_in_app, orb_true_iff, classify_sport_otro.
    intros [Hm|Hb] [Em Eb]; [apply Hmono in Hm | apply Hmono in Hb]; congruence.
  - rewrite classify_sport_otro. intros [Em Eb].
    unfold Run.looks_like_combat_sports in Hlooks. fold s in Hlooks.
    destruct (any_in Run.STOPWORDS_URL s); [discriminate|].
    change Run.KEYWORDS_MMA with KEYWORDS_MMA in Hlooks.
    rewrite run_keywords_box, !any_in_app in Hlooks.
    destruct (any_in KEYWORDS_MMA s) eqn:Hm.
    { apply Hmono in Hm. congruence. }
    destruct (any_in [py "peso pluma"; py "peso welter"; py "peso medio"] s);
      [done|].
    assert (any_in KEYWORDS_BOX s = true) as Hb.
    { rewrite <-(take_drop 5 KEYWORDS_BOX), any_in_app.
      by destruct (any_in (take 5 KEYWORDS_BOX) s),
                  (any_in (drop 5 KEYWORDS_BOX) s). }
    apply Hmono in Hb. congruence.
Qed.







End classifier_facts.

Lemma classify_sport_after_filter_witness :
  @Run.looks_like_combat_sports latin1
     (py "UFC 300: Topuria retains title") (py "https://example.com/ufc-300-topuria")
  = true
  ∧ @Sitegen.classify_sport latin1
      (py "UFC 300: Topuria retains title") (py "https://example.com/ufc-300-topuria") []
    ≠ py "Otro".
Proof.
  assert (@Run.looks_like_combat_sports latin1
            (py "UFC 300: Topuria retains title")
            (py "https://example.com/ufc-300-topuria") = true) as Hlooks
    by (vm_compute; reflexivity).
  split; [exact Hlooks|].
  apply (@classify_sport_after_filter latin1 _ _ [] Hlooks).
  vm_compute; reflexivity.
Defined.

(** C4 (as stated) fails: the filter accepts a title for the phrase "peso
    pluma", which is not a keyword of the classifier. *)
Lemma classify_sport_otro_after_filter :
  @Run.looks_like_combat_sports latin1
     (py "Nuevo campeon del peso pluma") (py "https://example.com/noticias/campeon")
  = true
  ∧ @Sitegen.classify_sport latin1
      (py "Nuevo campeon del peso pluma") (py "https://example.com/noticias/campeon") []
    = py "Otro".
Proof. split; vm_compute; reflexivity. Qed.



(** ** Listing-mode discovery *)
Section discovery_facts.
Context `{Unicode} (w : Run.World).
Import Run.


Lemma dedupe_elem_of (limit : Z) (seen : gset str) (out candidates : list Candidate)
    (c : Candidate) :
  c ∈ dedupe limit seen out candidates → c ∈ out ∨ c ∈ candidates.
Proof.
  revert seen out. induction candidates as [|x rest IH]; intros seen out; simpl.
  - by left.
  - repeat case_match.
    + intros Hc. apply IH in Hc as [?|?]; [by left | right; by right].
    + rewrite elem_of_app, list_elem_of_singleton. intros [?| ->]; [by left|].
      right. by left.
    + intros Hc. apply IH in Hc as [Hc|?]; [|right; by right].
      apply elem_of_app in Hc as [?|Hc]; [by left|].
      apply list_elem_of_singleton in Hc as ->. right. by left.
Qed.


End discovery_facts.



(** ** The orchestrator *)
Section pipeline_facts.
Context `{Unicode} `{Storage.Sqlite3} (w : Run.World).
Import Storage Run.

Lemma update_row_url (a r : ArticleRow) : url (update_row a r) = url r.
Proof. unfold update_row. by case_bool_decide. Qed.

Lemma has_url_upsert_article (db : SQLiteStore) (a : ArticleRow) (u : str) :
  has_url db u = true → has_url (upsert_article db a).2 u = true.
Proof.
  rewrite !has_url_elem_of. intros (r & Hin & Hu).
  unfold upsert_article. repeat case_match; cbn [snd]; try (by exists r).
  - exists (update_row a r). split; [|by rewrite update_row_url].
    apply list_elem_of_fmap. by exists r.
  - exists r. split; [|done]. apply elem_of_app. by left.
Qed.

Lemma row_ok_upsert_article (db : SQLiteStore) (a : ArticleRow) :
  row_ok a → Forall row_ok (articles db) →
  Forall row_ok (articles (upsert_article db a).2).
Proof.
  intros Ha Hdb. unfold upsert_article. repeat case_match; cbn [snd]; try done.
  - apply Forall_fmap. eapply Forall_impl; [exact Hdb|].
    intros r Hr. unfold update_row. simpl.
    destruct (bool_decide (url r = url a)); [exact Ha | done].
  - apply Forall_app. split; [done|]. by apply Forall_singleton.
Qed.

Lemma sha_nonempty (text hash : str) : sha w text = Ok hash → hash ≠ [].
Proof.
  unfold sha. cbv zeta. destruct (utf8_encode_error w _); [discriminate|].
  intros [= <-] E. apply (f_equal length) in E.
  rewrite sha256_hexdigest_length in E. discriminate E.
Qed.

(** The hash of a text long enough to be stored is a digest. *)
Lemma content_hash_of_long (text hash : str) :
  MIN_CHARS ≤ Z.of_nat (length text) →
  content_hash_of w text = Ok hash → sha w text = Ok hash ∧ hash ≠ [].
Proof.
  intros Hlen. destruct text as [|c text];
    [unfold MIN_CHARS in Hlen; simpl in Hlen; lia|].
  cbn [content_hash_of]. intros Hsha. split; [done|]. by eapply sha_nonempty.
Qed.

Local Ltac state_cbn :=
  cbn [db rows_probe total_candidates stored_new stored_updated
       skipped_existing extract_ok trace tick
       append_probe advance log set_db incr_total_candidates
       incr_skipped_existing incr_extract_ok incr_stored_new
       incr_stored_updated articles runs with_articles].

(** Everything the body of the candidate loop can do: reject the candidate;
    skip a known URL; record an error of the download, of the extraction or
    of the hashing; record a short text; store a long one; or record the
    error of an [upsert_article] that raised, after [extract_ok] was
    incremented. *)
Lemma process_item_cases (src : Sources.Source) (it : Candidate) (s : RunState) :
  let u := c_url it in
  let s1 := incr_total_candidates s in
  let s2 := advance (log (EvFetch u) (log (EvHasUrl u false) s1)) in
  (looks_like_combat_sports (c_title it) u = false
   ∧ process_item w src it s = s1)
  ∨ (looks_like_combat_sports (c_title it) u = true
     ∧ has_url (db s) u = true
     ∧ process_item w src it s = incr_skipped_existing (log (EvHasUrl u true) s1))
  ∨ (looks_like_combat_sports (c_title it) u = true
     ∧ has_url (db s) u = false
     ∧ ∃ ex, (fetch w (tick s) u = Raise ex
              ∨ ∃ status furl html,
                  fetch w (tick s) u = Ok (status, furl, html)
                  ∧ extract_text w html = Raise ex)
         ∧ process_item w src it s = append_probe (error_row (base_row src it) ex) s2)
  ∨ (looks_like_combat_sports (c_title it) u = true
     ∧ has_url (db s) u = false
     ∧ ∃ status furl html text,
         fetch w (tick s) u = Ok (status, furl, html)
         ∧ extract_text w html = Ok text
         ∧ ((∃ ex, content_hash_of w text = Raise ex
               ∧ process_item w src it s
                 = append_probe (error_row (base_row src it) ex) (advance s2))
            ∨ ∃ hash, content_hash_of w text = Ok hash
                ∧ let row := fetched_row (base_row src it) status furl
                               (netloc (urlparse w furl)) text hash in
                  let art := {| url := u; final_url := furl; title := c_title it;
                                source := Sources.name src;
                                published := c_published it;
                                domain := netloc (urlparse w furl);
                                fetched_at := utcnow_isoformat w (S (tick s));
                                extracted_chars := Z.of_nat (length text);
                                content_hash := hash; text := text |} in
                  (Z.of_nat (length text) < MIN_CHARS
                   ∧ process_item w src it s = append_probe row (advance s2))
                  ∨ (MIN_CHARS ≤ Z.of_nat (length text)
                     ∧ bind_params (insert_params art) = None
                     ∧ upsert_article (db s) art
                       = (Ok (py "new"),
                          with_articles (articles (db s) ++ [art]) (db s))
                     ∧ process_item w src it s
                       = append_probe row
                           (incr_stored_new
                              (log (EvUpsert u (py "new"))
                                 (set_db
                                    (with_articles (articles (db s) ++ [art]) (db s))
                                    (incr_extract_ok (advance s2))))))
                  ∨ (MIN_CHARS ≤ Z.of_nat (length text)
                     ∧ ∃ ex, bind_params (insert_params art) = Some ex
                         ∧ upsert_article (db s) art = (Raise ex, db s)
                         ∧ process_item w src it s
                           = append_probe (error_row (base_row src it) ex)
                               (log (EvUpsertRaised u)
                                  (incr_extract_ok (advance s2)))))).
Proof.
  intros u s1 s2. unfold process_item. cbv zeta. fold u.
  destruct (looks_like_combat_sports (c_title it) u) eqn:Hlooks; cbn [negb];
    [|by left].
  right. change (db (incr_total_candidates s)) with (db s).
  destruct (has_url (db s) u) eqn:Hhas; [by left|]. right.
  change (tick (log (EvHasUrl u false) (incr_total_candidates s))) with (tick s).
  destruct (fetch w (tick s) u) as [ [[status furl] html] | ex ] eqn:Hfetch;
    [|left; do 2 (split; [done|]); exists ex; split; [by left | done]].
  destruct (extract_text w html) as [text|ex] eqn:Hext;
    [|left; do 2 (split; [done|]); exists ex; split;
      [right; by exists status, furl, html | done]].
  right. do 2 (split; [done|]). exists status, furl, html, text.
  do 2 (split; [done|]).
  destruct (content_hash_of w text) as [hash|ex] eqn:Hhash;
    [|left; by exists ex].
  right. exists hash. split; [done|]. cbv zeta.
  change (p_extract_ok (fetched_row (base_row src it) status furl
                          (netloc (urlparse w furl)) text hash))
    with (MIN_CHARS <=? Z.of_nat (length text)).
  destruct (Z.leb_spec MIN_CHARS (Z.of_nat (length text))) as [Hlen|Hlen];
    [|by left].
  right.
  assert (get_by_url (db s) u = None) as Hnone by (by apply get_by_url_None).
  unfold store_article.
  cbn [p_content_hash p_published fetched_row base_row tick db advance log
       incr_total_candidates incr_extract_ok].
  match goal with |- context [upsert_article (db s) ?a] =>
    pose proof (upsert_article_absent (db s) a Hnone) as Hup;
    destruct (bind_params (insert_params a)) as [ex|] eqn:Hbind;
    rewrite Hup
  end.
  - right. split; [done|]. by exists ex.
  - left. do 3 (split; [done|]).
    cbn [url]. by rewrite bool_decide_eq_true_2.
Qed.

Lemma fetch_guarded_app (tr d : list Event) :
  fetch_guarded tr → fetch_guarded d → fetch_guarded (tr ++ d).
Proof.
  intros Htr Hd pre u post E.
  apply app_eq_inv in E as [(k & -> & E)|(k & -> & E)].
  - destruct k as [|e k]; simpl in E.
    + destruct (Hd [] u post (eq_sym E)) as [pre' Hpre]. by destruct pre'.
    + injection E as <- ->. exact (Htr pre u k eq_refl).
  - destruct (Hd k u post E) as [pre' ->]. exists (tr ++ pre').
    by rewrite <-(assoc_L (++)).
Qed.

Lemma fetch_guarded_no_fetch (d : list Event) :
  (∀ u, EvFetch u ∉ d) → fetch_guarded d.
Proof.
  intros Hd pre u post ->. exfalso. apply (Hd u).
  apply elem_of_app. right. by left.
Qed.

Lemma fetch_guarded_checked (u : str) (d : list Event) :
  (∀ v, EvFetch v ∉ d) → fetch_guarded ([EvHasUrl u false; EvFetch u] ++ d).
Proof.
  intros Hd pre v post E.
  destruct pre as [|e1 [|e2 pre]]; simpl in E.
  - discriminate E.
  - simplify_eq. by exists [].
  - simplify_eq. exfalso. apply (Hd v).
    apply elem_of_app. right. by left.
Qed.

Lemma filter_none {A} (P : A → Prop) `{∀ x, Decision (P x)} (l : list A) :
  (∀ x, x ∈ l → ¬ P x) → filter P l = [].
Proof.
  induction l as [|x l IH]; intros Hl; [done|].
  rewrite filter_cons, decide_False by (apply Hl; by left).
  apply IH. intros y Hy. apply Hl. by right.
Qed.

Lemma skip_final_none (d : list Event) :
  (∀ u, EvHasUrl u true ∉ d) → skip_final d.
Proof.
  intros Hd pre u post ->. exfalso. apply (Hd u).
  apply elem_of_app. right. by left.
Qed.

Lemma skip_final_app (tr d : list Event) :
  skip_final tr → skip_final d →
  (∀ u, EvHasUrl u true ∈ tr → (EvFetch u ∉ d) ∧ (EvHasUrl u false ∉ d)) →
  skip_final (tr ++ d).
Proof.
  intros Htr Hd Hcross pre u post E.
  apply app_eq_inv in E as [(k & -> & E)|(k & -> & E)].
  - destruct k as [|e k]; simpl in E.
    + apply (Hd [] u post). by rewrite E.
    + injection E as <- ->.
      destruct (Htr pre u k eq_refl) as [Hf Hn].
      destruct (Hcross u) as [Hf' Hn'].
      { apply elem_of_app. right. by left. }
      rewrite !elem_of_app. split; intros [?|?]; done.
  - by apply (Hd k u post).
Qed.

(** The run invariant is kept when the log grows by [d] and the database
    only gains rows, provided [d] is guarded, final on skips, and its
    answers are those of [has_url] on the database before. *)
Lemma run_invariant_extend (db0 : SQLiteStore) (s s' : RunState) (d : list Event) :
  trace s' = trace s ++ d →
  (∀ u, has_url (db s) u = true → has_url (db s') u = true) →
  (Forall row_ok (articles (db s)) → Forall row_ok (articles (db s'))) →
  skipped_existing s'
  = skipped_existing s + Z.of_nat (length (filter (λ e, answered_true e = true) d)) →
  fetch_guarded d →
  skip_final d →
  (∀ u, EvFetch u ∈ d ∨ EvHasUrl u false ∈ d → has_url (db s) u = false) →
  (∀ u, EvHasUrl u true ∈ d → has_url (db s) u = true) →
  run_invariant db0 s → run_invariant db0 s'.
Proof.
  intros Htr Hmono Hok Hsk Hg Hf Hneg Hpos (I1 & I2 & I3 & I4 & I5 & I6).
  unfold run_invariant. rewrite Htr. split_and!.
  - by apply fetch_guarded_app.
  - intros u Hu. destruct (I2 u Hu) as [Hs Hnf]. split; [by apply Hmono|].
    rewrite elem_of_app. intros [?|Hin]; [done|].
    assert (has_url (db s) u = false) by (apply Hneg; by left). congruence.
  - intros Hall. by apply Hok, I3.
  - intros u. rewrite elem_of_app. intros [Hin|Hin]; apply Hmono; [by apply I4|].
    by apply Hpos.
  - apply skip_final_app; [done|done|].
    intros u Hu. apply I4 in Hu.
    split; intros Hin.
    + assert (has_url (db s) u = false) by (apply Hneg; by left). congruence.
    + assert (has_url (db s) u = false) by (apply Hneg; by right). congruence.
  - rewrite filter_app, length_app, Hsk, I6. lia.
Qed.

Lemma run_invariant_same (db0 : SQLiteStore) (s s' : RunState) :
  articles (db s') = articles (db s) → trace s' = trace s →
  skipped_existing s' = skipped_existing s →
  run_invariant db0 s → run_invariant db0 s'.
Proof.
  intros Hdb Htr Hsk. apply (run_invariant_extend db0 s s' []).
  - by rewrite app_nil_r.
  - unfold has_url. by rewrite Hdb.
  - by rewrite Hdb.
  - rewrite Hsk. simpl. lia.
  - apply fetch_guarded_no_fetch. intros u. apply not_elem_of_nil.
  - apply skip_final_none. intros u. apply not_elem_of_nil.
  - intros u [Hin|Hin]; by apply elem_of_nil in Hin.
  - intros u Hin. by apply elem_of_nil in Hin.
Qed.

Lemma run_invariant_listing (db0 : SQLiteStore) (s s' : RunState) (v : str) :
  db s' = db s → trace s' = trace s ++ [EvListing v] →
  skipped_existing s' = skipped_existing s →
  run_invariant db0 s → run_invariant db0 s'.
Proof.
  intros Hdb Htr Hsk. apply (run_invariant_extend db0 s s' [EvListing v]).
  - done.
  - by rewrite Hdb.
  - by rewrite Hdb.
  - rewrite Hsk. simpl. lia.
  - apply fetch_guarded_no_fetch. intros u Hin.
    by apply list_elem_of_singleton in Hin.
  - apply skip_final_none. intros u Hin.
    by apply list_elem_of_singleton in Hin.
  - intros u [Hin|Hin]; by apply list_elem_of_singleton in Hin.
  - intros u Hin. by apply list_elem_of_singleton in Hin.
Qed.

(** The invariant after a candidate that was downloaded: the log grows by
    the negative answer, the download and at most one event [e] of the
    store. *)
Lemma run_invariant_checked (db0 : SQLiteStore) (s s' : RunState) (u : str)
    (d : list Event) :
  has_url (db s) u = false →
  trace s' = trace s ++ [EvHasUrl u false; EvFetch u] ++ d →
  (∀ e, e ∈ d → e = EvUpsertRaised u ∨ ∃ res, e = EvUpsert u res) →
  (∀ v, has_url (db s) v = true → has_url (db s') v = true) →
  (Forall row_ok (articles (db s)) → Forall row_ok (articles (db s'))) →
  skipped_existing s' = skipped_existing s →
  run_invariant db0 s → run_invariant db0 s'.
Proof.
  intros Hhas Htr Hd Hmono Hok Hsk.
  assert (∀ e, e ∈ [EvHasUrl u false; EvFetch u] ++ d →
            e = EvHasUrl u false ∨ e = EvFetch u ∨ e = EvUpsertRaised u
            ∨ ∃ res, e = EvUpsert u res) as Hall.
  { intros e Hin. apply elem_of_app in Hin as [Hin|Hin].
    - apply elem_of_cons in Hin as [->|Hin]; [by left|].
      apply list_elem_of_singleton in Hin as ->. right. by left.
    - destruct (Hd e Hin) as [->|?]; [right; right; by left | by do 3 right]. }
  apply (run_invariant_extend db0 s s' ([EvHasUrl u false; EvFetch u] ++ d)).
  - done.
  - done.
  - done.
  - rewrite Hsk.
    assert (filter (λ e, answered_true e = true) ([EvHasUrl u false; EvFetch u] ++ d)
            = []) as ->; [|simpl; lia].
    apply filter_none. intros e Hin.
    destruct (Hall e Hin) as [->|[->|[->|[res ->]]]]; done.
  - apply fetch_guarded_checked. intros v Hin.
    destruct (Hd _ Hin) as [?|[res ?]]; done.
  - apply skip_final_none. intros v Hin.
    destruct (Hall _ Hin) as [?|[?|[?|[res ?]]]]; done.
  - intros v [Hin|Hin]; destruct (Hall _ Hin) as [E|[E|[E|[res E]]]];
      try done; by injection E as ->.
  - intros v Hin. destruct (Hall _ Hin) as [?|[?|[?|[res ?]]]]; done.
Qed.

Lemma process_item_invariant (db0 : SQLiteStore) (src : Sources.Source)
    (it : Candidate) (s : RunState) :
  run_invariant db0 s → run_invariant db0 (process_item w src it s).
Proof.
  intros Hinv.
  destruct (process_item_cases src it s)
    as [[_ E]|[(_ & Hhas & E)|[(_ & Hhas & ex & _ & E)
       |(_ & Hhas & status & furl & html & text & _ & _
         & [(ex & Hsha & E)|(hash & Hhash
            & [[Hlen E]|[(Hlen & Hbind & Hup & E)|(Hlen & ex & Hbind & Hup & E)]])])]]];
    rewrite E; clear E.
  - by apply (run_invariant_same db0 s).
  - apply (run_invariant_extend db0 s _ [EvHasUrl (c_url it) true]);
      [done | done | done | state_cbn; simpl; lia | | | | | done].
    + apply fetch_guarded_no_fetch. intros u Hin.
      by apply list_elem_of_singleton in Hin.
    + intros pre u post E. destruct pre as [|e [|e' pre]]; simpl in E; simplify_eq.
      split; apply not_elem_of_nil.
    + intros u [Hin|Hin]; by apply list_elem_of_singleton in Hin.
    + intros u Hin. apply list_elem_of_singleton in Hin. by injection Hin as ->.
  - apply (run_invariant_checked db0 s _ (c_url it) []);
      [done | state_cbn; by rewrite <-!(assoc_L (++)) | | done | done | done | done].
    intros e Hin. by apply elem_of_nil in Hin.
  - apply (run_invariant_checked db0 s _ (c_url it) []);
      [done | state_cbn; by rewrite <-!(assoc_L (++)) | | done | done | done | done].
    intros e Hin. by apply elem_of_nil in Hin.
  - apply (run_invariant_checked db0 s _ (c_url it) []);
      [done | state_cbn; by rewrite <-!(assoc_L (++)) | | done | done | done | done].
    intros e Hin. by apply elem_of_nil in Hin.
  - apply (run_invariant_checked db0 s _ (c_url it) [EvUpsert (c_url it) (py "new")]);
      [done | state_cbn; by rewrite <-!(assoc_L (++)) | | | | done | done].
    + intros e Hin. apply list_elem_of_singleton in Hin as ->. right. by eexists.
    + intros v Hv. state_cbn.
      match goal with |- has_url ?d v = true =>
        change d with (Ok (py "new"), d).2
      end.
      rewrite <-Hup. by apply has_url_upsert_article.
    + intros Hall. state_cbn. apply Forall_app. split; [done|].
      apply Forall_singleton. split; cbn [extracted_chars content_hash]; [done|].
      by apply (content_hash_of_long text).
  - apply (run_invariant_checked db0 s _ (c_url it) [EvUpsertRaised (c_url it)]);
      [done | state_cbn; by rewrite <-!(assoc_L (++)) | | done | done | done | done].
    intros e Hin. apply list_elem_of_singleton in Hin as ->. by left.
Qed.

Lemma process_items_invariant (db0 : SQLiteStore) (src : Sources.Source)
    (items : list Candidate) (s : RunState) :
  run_invariant db0 s → run_invariant db0 (process_items w src items s).
Proof.
  unfold process_items. revert s.
  induction items as [|it items IH]; intros s Hinv; simpl; [done|].
  apply IH. by apply process_item_invariant.
Qed.

Lemma process_source_invariant (db0 : SQLiteStore) (limit : Z)
    (src : Sources.Source) (s : RunState) :
  run_invariant db0 s → run_invariant db0 (process_source w limit src s).1.
Proof.
  intros Hinv. unfold process_source. cbv zeta.
  case_bool_decide; [|case_bool_decide]; cbn [fst]; [| |done].
  - apply process_items_invariant.
    by apply (run_invariant_same db0 s).
  - assert (run_invariant db0 (advance (log (EvListing (Sources.url src)) s)))
      as Hinv' by (by apply (run_invariant_listing db0 s _ (Sources.url src))).
    destruct (get_urls_from_html_list w _ _ _) as [items|ex]; cbn [fst]; [|done].
    by apply process_items_invariant.
Qed.

Lemma process_sources_invariant (db0 : SQLiteStore) (limit : Z)
    (srcs : list Sources.Source) (s : RunState) :
  run_invariant db0 s → run_invariant db0 (process_sources w limit srcs s).1.
Proof.
  revert s. induction srcs as [|src srcs IH]; intros s Hinv; simpl; [done|].
  pose proof (process_source_invariant db0 limit src s Hinv) as Hsrc.
  destruct (process_source w limit src s) as [s' [ex|]]; [done|].
  by apply IH.
Qed.

Lemma main_invariant (db0 : SQLiteStore) (t0 : nat) (limit : Z) :
  run_invariant db0 (final (main w db0 t0 limit)).
Proof.
  unfold main. cbv zeta.
  match goal with |- context [process_sources w limit Sources.SOURCES ?s0] =>
    assert (run_invariant db0 s0) as Hinit
  end.
  { unfold run_invariant. state_cbn. split_and!.
    - intros pre u post E. by destruct pre.
    - intros u Hu. split; [done | apply not_elem_of_nil].
    - done.
    - intros u Hin. by apply elem_of_nil in Hin.
    - intros pre u post E. by destruct pre.
    - done. }
  apply (process_sources_invariant db0 limit Sources.SOURCES) in Hinit.
  destruct (process_sources w limit Sources.SOURCES _) as [s [ex|]];
    cbn [final fst] in *; [done|].
  by apply (run_invariant_same db0 s).
Qed.

(** C3: a URL that has a row makes [has_url] answer true, and a run never
    downloads a URL stored at its start; in the log of a run every candidate
    download comes right after a negative answer of [has_url] for that URL;
    once [has_url] has answered true for a URL, the rest of the log holds no
    download of it and no negative answer for it, and the URL is in the
    database the run leaves; [skipped_existing] ends as the number of
    positive answers in the log; and a candidate for which [has_url] answers
    true adds one to [skipped_existing] and to [total_candidates], logs the
    positive answer, and changes nothing else: no download, no debug row, no
    store, no other counter. *)
Theorem no_fetch_after_has_url (db0 : SQLiteStore) (t0 : nat) (limit : Z) :
  let s := final (main w db0 t0 limit) in
  let tr := trace s in
  (∀ u, (∃ r, r ∈ articles db0 ∧ url r = u) →
     has_url db0 u = true ∧ EvFetch u ∉ tr)
  ∧ (∀ d u, (∃ r, r ∈ articles d ∧ url r = u) → has_url d u = true)
  ∧ fetch_guarded tr
  ∧ (∀ pre u post, tr = pre ++ EvHasUrl u true :: post →
       (EvFetch u ∉ post) ∧ (EvHasUrl u false ∉ post))
  ∧ (∀ u, EvHasUrl u true ∈ tr → has_url (db s) u = true)
  ∧ skipped_existing s
    = Z.of_nat (length (filter (λ e, answered_true e = true) tr))
  ∧ (∀ src it s0,
       looks_like_combat_sports (c_title it) (c_url it) = true →
       has_url (db s0) (c_url it) = true →
       let s1 := process_item w src it s0 in
       skipped_existing s1 = skipped_existing s0 + 1
       ∧ total_candidates s1 = total_candidates s0 + 1
       ∧ trace s1 = trace s0 ++ [EvHasUrl (c_url it) true]
       ∧ db s1 = db s0
       ∧ rows_probe s1 = rows_probe s0
       ∧ tick s1 = tick s0
       ∧ stored_new s1 = stored_new s0
       ∧ stored_updated s1 = stored_updated s0
       ∧ extract_ok s1 = extract_ok s0).
Proof.
  intros s tr.
  destruct (main_invariant db0 t0 limit) as (Hg & Hurl & _ & Hpos & Hskip & Hcount).
  fold s in Hg, Hurl, Hpos, Hskip, Hcount. fold tr in Hg, Hurl, Hpos, Hskip, Hcount.
  split_and!.
  - intros u Hrow. apply has_url_elem_of in Hrow. split; [done|].
    by apply Hurl.
  - intros d u Hrow. by apply has_url_elem_of.
  - exact Hg.
  - exact Hskip.
  - exact Hpos.
  - exact Hcount.
  - intros src it s0 Hlooks Hhas s1. unfold s1, process_item. cbv zeta.
    rewrite Hlooks. cbn [negb db incr_total_candidates]. rewrite Hhas.
    state_cbn. done.
Qed.


End pipeline_facts.

Section reachable_facts.
Context `{Unicode} `{Storage.Sqlite3}.
Import Storage Run.

(** C9: every row of a database that runs of the pipeline produce from an
    empty one has [extracted_chars] at least [MIN_CHARS], which is 900, and
    a non-empty [content_hash]; the loop body leaves the database alone or
    calls [upsert_article] with such a row. *)
Theorem stored_rows_meet_threshold (db1 : SQLiteStore) :
  reachable db1 →
  MIN_CHARS = 900
  ∧ (∀ r, r ∈ articles db1 →
       MIN_CHARS ≤ extracted_chars r ∧ content_hash r ≠ [])
  ∧ (∀ w src it s,
       db (process_item w src it s) = db s
       ∨ ∃ art, (MIN_CHARS ≤ extracted_chars art ∧ content_hash art ≠ [])
           ∧ db (process_item w src it s) = (upsert_article (db s) art).2).
Proof.
  intros Hreach. split_and!; [done| |].
  - assert (Forall row_ok (articles db1)) as Hall.
    { induction Hreach as [|w' db0 t0 limit _ IH]; [by apply Forall_nil|].
      destruct (main_invariant w' db0 t0 limit) as (_ & _ & Hrows & _).
      by apply Hrows. }
    intros r Hr. rewrite Forall_forall in Hall. by apply Hall.
  - intros w src it s.
    destruct (process_item_cases w src it s)
      as [[_ E]|[(_ & Hhas & E)|[(_ & Hhas & ex & _ & E)
         |(_ & Hhas & status & furl & html & text & _ & _
           & [(ex & Hsha & E)|(hash & Hhash
              & [[Hlen E]|[(Hlen & Hbind & Hup & E)|(Hlen & ex & Hbind & Hup & E)]])])]]];
      rewrite E; clear E;
      [by left | by left | by left | by left | by left | | by left].
    right. eexists. split; [|rewrite Hup; reflexivity].
    split; cbn [extracted_chars content_hash]; [done|].
    by apply (content_hash_of_long w text).
Qed.

End reachable_facts.

Lemma no_fetch_after_has_url_witness :
  Storage.has_url Demo.after_first_run Demo.feed_link = true
  ∧ Run.EvFetch Demo.feed_link
    ∉ Run.trace (Run.final (@Run.main latin1 Demo.sqlite3 Demo.world Demo.after_first_run 10 30)).
Proof.
  destruct (@no_fetch_after_has_url latin1 Demo.sqlite3 Demo.world Demo.after_first_run 10 30)
    as (Hstored & _).
  apply Hstored. exists Demo.stored_row. split; [|reflexivity].
  assert (Storage.articles Demo.after_first_run = [Demo.stored_row]) as ->
    by (vm_compute; reflexivity).
  apply list_elem_of_here.
Defined.


Lemma stored_rows_meet_threshold_witness :
  Demo.stored_row ∈ Storage.articles Demo.after_first_run
  ∧ Run.MIN_CHARS ≤ Storage.extracted_chars Demo.stored_row
  ∧ Storage.content_hash Demo.stored_row ≠ [].
Proof.
  assert (Demo.stored_row ∈ Storage.articles Demo.after_first_run) as Hin.
  { assert (Storage.articles Demo.after_first_run = [Demo.stored_row]) as ->
      by (vm_compute; reflexivity).
    apply list_elem_of_here. }
  split; [exact Hin|].
  destruct (@stored_rows_meet_threshold latin1 Demo.sqlite3 Demo.after_first_run)
    as (_ & Hrows & _).
  - exact (@reachable_run latin1 Demo.sqlite3 Demo.world Storage.empty_db 0 30
             (@reachable_empty latin1 Demo.sqlite3)).
  - by apply Hrows.
Defined.

(** * Further properties of the store *)
Section store_more.
Import Storage.

Lemma update_row_same_url (a r : ArticleRow) : url r = url a → update_row a r = a.
Proof.
  intros Hu. unfold update_row. rewrite bool_decide_eq_true_2 by done.
  rewrite Hu. by destruct a.
Qed.

Lemma find_update_row (a : ArticleRow) (u : str) (rows : list ArticleRow) :
  find (λ r, bool_decide (url r = u)) (update_row a <$> rows)
  = update_row a <$> find (λ r, bool_decide (url r = u)) rows.
Proof.
  induction rows as [|r rows IH]; [done|].
  cbn [fmap list_fmap find]. rewrite update_row_url.
  destruct (bool_decide (url r = u)); [done | exact IH].
Qed.

Lemma find_url_app_other (rows : list ArticleRow) (a : ArticleRow) (u : str) :
  u ≠ url a →
  find (λ r, bool_decide (url r = u)) (rows ++ [a])
  = find (λ r, bool_decide (url r = u)) rows.
Proof.
  intros Hne. induction rows as [|r rows IH]; simpl.
  - by rewrite bool_decide_eq_false_2.
  - destruct (bool_decide (url r = u)); [done | exact IH].
Qed.

Lemma fmap_url_update_row (a : ArticleRow) (rows : list ArticleRow) :
  url <$> (update_row a <$> rows) = url <$> rows.
Proof.
  rewrite <-list_fmap_compose. apply list_fmap_ext.
  intros i r _. apply update_row_url.
Qed.

(** X1: [has_url] and [get_by_url] agree, and the row [get_by_url] returns
    is a row of the table with the URL asked for. *)
Theorem has_url_agrees_with_get_by_url (db : SQLiteStore) (u : str) :
  (has_url db u = true ↔ is_Some (get_by_url db u))
  ∧ (has_url db u = false ↔ get_by_url db u = None)
  ∧ (∀ r, get_by_url db u = Some r → r ∈ articles db ∧ url r = u).
Proof.
  split_and!.
  - apply has_url_get_by_url.
  - symmetry. apply get_by_url_None.
  - apply get_by_url_Some.
Qed.

Lemma has_url_agrees_with_get_by_url_witness :
  Demo.row "https://example.com/ufc-300-topuria" "2024-04-14T06:00:00+00:00" "ab12" 1200
    ∈ articles Demo.one_row_db
  ∧ url (Demo.row "https://example.com/ufc-300-topuria" "2024-04-14T06:00:00+00:00" "ab12" 1200)
    = py "https://example.com/ufc-300-topuria".
Proof.
  apply (has_url_agrees_with_get_by_url Demo.one_row_db
           (py "https://example.com/ufc-300-topuria")).
  vm_compute; reflexivity.
Defined.

Section upsert_more.
Context `{Sqlite3}.

(** X2: after an [upsert_article db a] that returns, a lookup of [a]'s URL
    finds a row with [a]'s URL, hash and length; the row is [a] itself
    unless the answer was "unchanged", in which case the database is the one
    before the call.  After one that raises, the database is the one before
    the call.  The call returns when SQLite can bind the values of [a]. *)
Theorem upsert_article_then_get_by_url (db : SQLiteStore) (a : ArticleRow) :
  let out := upsert_article db a in
  (∀ res, out.1 = Ok res →
     (∃ row, get_by_url out.2 (url a) = Some row
        ∧ url row = url a ∧ content_hash row = content_hash a
        ∧ extracted_chars row = extracted_chars a)
     ∧ (res ≠ py "unchanged" → get_by_url out.2 (url a) = Some a)
     ∧ (res = py "unchanged" → out.2 = db))
  ∧ (∀ ex, out.1 = Raise ex → out.2 = db)
  ∧ (bind_params (insert_params a) = None → ∃ res, out.1 = Ok res).
Proof.
  intros out. unfold out. clear out.
  destruct results_distinct as (Hnu & Hnc & Huc).
  split; [|split; [apply upsert_article_raise|]].
  - destruct (get_by_url db (url a)) as [existing|] eqn:Hget.
    + rewrite (upsert_article_existing _ _ _ Hget).
      destruct (get_by_url_Some _ _ _ Hget) as [_ Hu].
      assert (get_by_url (with_articles (update_row a <$> articles db) db) (url a)
              = Some a) as Hget'.
      { unfold get_by_url in *. cbn [articles with_articles].
        rewrite find_update_row, Hget. cbn. by rewrite update_row_same_url. }
      destruct (bind_error (PText (url a))); [done|].
      destruct (bool_decide (content_hash existing = content_hash a)) eqn:Eh;
        [destruct (bool_decide (extracted_chars existing = extracted_chars a)) eqn:Ec|];
        cbn [andb].
      * cbn [fst snd]. intros res [= <-].
        apply bool_decide_eq_true in Eh, Ec. split_and!; [|done|done].
        by exists existing.
      * destruct (bind_params (update_params a)); cbn [fst snd]; intros res [= <-].
        split_and!; [by exists a | done | intros E; by destruct Huc].
      * destruct (bind_params (update_params a)); cbn [fst snd]; intros res [= <-].
        split_and!; [by exists a | done | intros E; by destruct Huc].
    + rewrite (upsert_article_absent _ _ Hget).
      destruct (bind_params (insert_params a)); cbn [fst snd]; intros res [= <-].
      assert (get_by_url (with_articles (articles db ++ [a]) db) (url a) = Some a)
        as Hget' by (by apply find_url_app).
      split_and!; [by exists a | done | intros E; by destruct Hnc].
  - intros Hbind.
    assert (bind_params (update_params a) = None) as Hupd
      by (by apply update_params_None).
    destruct (get_by_url db (url a)) as [existing|] eqn:Hget.
    + rewrite (upsert_article_existing _ _ _ Hget).
      rewrite (insert_params_url _ Hbind), Hupd.
      destruct (_ && _); eauto.
    + rewrite (upsert_article_absent _ _ Hget), Hbind. eauto.
Qed.

(** X3: [upsert_article] leaves the rows of every other URL, and the runs
    table, as they were. *)
Theorem upsert_article_other_urls (db : SQLiteStore) (a : ArticleRow) (u : str) :
  u ≠ url a →
  get_by_url (upsert_article db a).2 u = get_by_url db u
  ∧ has_url (upsert_article db a).2 u = has_url db u
  ∧ runs (upsert_article db a).2 = runs db.
Proof.
  intros Hne.
  assert (get_by_url (upsert_article db a).2 u = get_by_url db u
          ∧ runs (upsert_article db a).2 = runs db) as [Hget Hruns].
  { unfold upsert_article. repeat case_match; cbn [snd]; try done.
    - split; [|done]. unfold get_by_url. cbn [articles with_articles].
      rewrite find_update_row.
      destruct (find _ (articles db)) as [r|] eqn:Hfind; [|done].
      apply find_some in Hfind as [_ Hu]. apply bool_decide_eq_true in Hu.
      cbn. unfold update_row. rewrite bool_decide_eq_false_2; [done|congruence].
    - split; [|done]. unfold get_by_url. cbn [articles with_articles].
      by apply find_url_app_other. }
  split_and!; [done| |done].
  destruct (has_url db u) eqn:Hhas.
  - apply has_url_get_by_url. rewrite Hget. by apply has_url_get_by_url.
  - apply get_by_url_None. rewrite Hget. by apply get_by_url_None.
Qed.

(** The URL column after [upsert_article]. *)
Lemma upsert_article_urls (db : SQLiteStore) (a : ArticleRow) :
  url <$> articles (upsert_article db a).2
  = if has_url db (url a) then url <$> articles db
    else match (upsert_article db a).1 with
         | Ok _ => (url <$> articles db) ++ [url a]
         | Raise _ => url <$> articles db
         end.
Proof.
  destruct (get_by_url db (url a)) as [existing|] eqn:Hget.
  - assert (has_url db (url a) = true) as -> by (apply has_url_get_by_url; eauto).
    rewrite (upsert_article_existing _ _ _ Hget).
    repeat case_match; cbn [snd articles with_articles]; try done.
    apply fmap_url_update_row.
  - assert (has_url db (url a) = false) as -> by (by apply get_by_url_None).
    rewrite (upsert_article_absent _ _ Hget).
    case_match; cbn [fst snd articles with_articles]; [done|].
    by rewrite fmap_app.
Qed.

Lemma upsert_article_NoDup (db : SQLiteStore) (a : ArticleRow) :
  NoDup (url <$> articles db) → NoDup (url <$> articles (upsert_article db a).2).
Proof.
  intros Hnd. rewrite upsert_article_urls.
  destruct (has_url db (url a)) eqn:Hhas; [done|].
  destruct (upsert_article db a).1; [|done].
  apply NoDup_app. split_and!; [done| |apply NoDup_singleton].
  intros u Hu Hu'. apply list_elem_of_singleton in Hu' as ->.
  apply list_elem_of_fmap in Hu as (r & Hr & Hin).
  assert (has_url db (url a) = true) as Ht; [|congruence].
  apply has_url_elem_of. by exists r.
Qed.

Lemma upsert_article_new (db : SQLiteStore) (a : ArticleRow) :
  (upsert_article db a).1 = Ok (py "new")
  ↔ has_url db (url a) = false ∧ bind_params (insert_params a) = None.
Proof.
  destruct results_distinct as (Hnu & Hnc & Huc).
  rewrite <-get_by_url_None.
  destruct (get_by_url db (url a)) as [existing|] eqn:Hget.
  - rewrite (upsert_article_existing _ _ _ Hget).
    repeat case_match; cbn [fst]; split; try done;
      try (intros [? ?]; done); intros [= E]; exfalso; eauto.
  - rewrite (upsert_article_absent _ _ Hget).
    destruct (bind_params (insert_params a)); cbn [fst]; split; try done.
    intros [_ ?]; done.
Qed.

(** X4: [upsert_article] keeps the primary key: the URL column stays as it
    was when the URL has a row or the call raises, and gets the URL appended
    when the URL has no row and the call returns; so URLs that were pairwise
    distinct stay so, and the table grows by one row exactly when the answer
    is "new", which is when the URL has no row and SQLite can bind the
    values of the article. *)
Theorem upsert_article_primary_key (db : SQLiteStore) (a : ArticleRow) :
  (url <$> articles (upsert_article db a).2
   = if has_url db (url a) then url <$> articles db
     else match (upsert_article db a).1 with
          | Ok _ => (url <$> articles db) ++ [url a]
          | Raise _ => url <$> articles db
          end)
  ∧ (NoDup (url <$> articles db) →
     NoDup (url <$> articles (upsert_article db a).2))
  ∧ ((upsert_article db a).1 = Ok (py "new") →
     length (articles (upsert_article db a).2) = S (length (articles db)))
  ∧ ((upsert_article db a).1 ≠ Ok (py "new") →
     length (articles (upsert_article db a).2) = length (articles db))
  ∧ ((upsert_article db a).1 = Ok (py "new")
     ↔ has_url db (url a) = false ∧ bind_params (insert_params a) = None).
Proof.
  split_and!.
  - apply upsert_article_urls.
  - apply upsert_article_NoDup.
  - intros Hnew. pose proof Hnew as Hnew'.
    apply upsert_article_new in Hnew' as [Hhas _].
    rewrite <-(length_fmap url), upsert_article_urls, Hhas, Hnew.
    rewrite length_app, !length_fmap. simpl. lia.
  - intros Hnew.
    rewrite <-(length_fmap url), upsert_article_urls.
    destruct (has_url db (url a)) eqn:Hhas; [by rewrite length_fmap|].
    destruct (upsert_article db a).1 as [res|ex] eqn:Hres;
      [|by rewrite length_fmap].
    exfalso. apply Hnew. rewrite <-Hres. apply upsert_article_new.
    split; [done|].
    destruct (bind_params (insert_params a)) as [ex|] eqn:Hbind; [|done].
    apply get_by_url_None in Hhas.
    rewrite (upsert_article_absent _ _ Hhas), Hbind in Hres. discriminate Hres.
  - apply upsert_article_new.
Qed.

(** X5: when [upsert_article] returns, it answers "new", "updated" or
    "unchanged", and [has_url] is true for the URL afterwards; it answers
    "new" exactly when [has_url] was false for the URL and SQLite can bind
    the values of the article; when it raises, the exception is the binding
    error of one of its three statements and the database is the one before
    the call; it returns whenever the values can be bound; and an article
    whose length does not fit 64 bits, or whose text has a lone surrogate,
    is never written: the only answer the call can return is "unchanged". *)
Theorem upsert_article_result (db : SQLiteStore) (a : ArticleRow) :
  (∀ res, (upsert_article db a).1 = Ok res →
     res ∈ [py "new"; py "updated"; py "unchanged"]
     ∧ has_url (upsert_article db a).2 (url a) = true)
  ∧ ((upsert_article db a).1 = Ok (py "new")
     ↔ has_url db (url a) = false ∧ bind_params (insert_params a) = None)
  ∧ (∀ ex, (upsert_article db a).1 = Raise ex →
       (upsert_article db a).2 = db
       ∧ (bind_error (PText (url a)) = Some ex
          ∨ bind_params (insert_params a) = Some ex
          ∨ bind_params (update_params a) = Some ex))
  ∧ (bind_params (insert_params a) = None →
     ∃ res, (upsert_article db a).1 = Ok res)
  ∧ (¬ (- 2 ^ 63 ≤ extracted_chars a < 2 ^ 63) ∨ no_surrogate (text a) = false →
     (∀ res, (upsert_article db a).1 = Ok res → res = py "unchanged")
     ∧ (upsert_article db a).2 = db).
Proof.
  assert (bind_params (insert_params a) = None →
          ∃ res, (upsert_article db a).1 = Ok res) as Hreturns.
  { intros Hbind.
    assert (bind_params (update_params a) = None) as Hupd
      by (by apply update_params_None).
    destruct (get_by_url db (url a)) as [existing|] eqn:Hget.
    - rewrite (upsert_article_existing _ _ _ Hget).
      rewrite (insert_params_url _ Hbind), Hupd.
      destruct (_ && _); eauto.
    - rewrite (upsert_article_absent _ _ Hget), Hbind. eauto. }
  split_and!.
  - intros res Hres. split.
    + revert Hres. unfold upsert_article.
      repeat case_match; cbn [fst]; intros [= <-].
      * do 2 apply list_elem_of_further. apply list_elem_of_here.
      * apply list_elem_of_further, list_elem_of_here.
      * apply list_elem_of_here.
    + apply has_url_elem_of.
      assert (url a ∈ url <$> articles (upsert_article db a).2) as Hin.
      { rewrite upsert_article_urls, Hres.
        destruct (has_url db (url a)) eqn:Hhas.
        - apply has_url_elem_of in Hhas as (r & Hr & Hu).
          apply list_elem_of_fmap. by exists r.
        - apply elem_of_app. right. apply list_elem_of_here. }
      apply list_elem_of_fmap in Hin as (r & Hu & Hr). by exists r.
  - apply upsert_article_new.
  - intros ex Hex. split; [by apply (upsert_article_raise db a ex)|].
    revert Hex. unfold upsert_article at 1. cbn [bind_params].
    destruct (bind_error (PText (url a))) as [exu|] eqn:Eu;
      [intros [= <-]; by left|].
    repeat case_match; cbn [fst]; intros [= <-]; auto.
  - exact Hreturns.
  - intros Hbad.
    assert (bind_params (insert_params a) ≠ None) as Hinsert.
    { rewrite bind_params_None. unfold insert_params. rewrite !Forall_cons.
      intros (_ & _ & _ & _ & _ & _ & _ & Hint & _ & Htext & _).
      destruct Hbad as [Hrange|Hsur].
      - by apply bind_error_int in Hint.
      - by apply bind_error_surrogate in Hsur. }
    assert (bind_params (update_params a) ≠ None) as Hupdate
      by (by rewrite update_params_None).
    unfold upsert_article. cbn [bind_params].
    destruct (bind_error (PText (url a))); [by split|].
    repeat case_match; cbn [fst snd]; try done; split; try done;
      intros res [= <-]; done.
Qed.

End upsert_more.

Lemma upsert_article_then_get_by_url_witness :
  get_by_url (@upsert_article Demo.sqlite3 Storage.empty_db Demo.retitled).2
    (url Demo.retitled)
  = Some Demo.retitled.
Proof.
  destruct (@upsert_article_then_get_by_url Demo.sqlite3 Storage.empty_db Demo.retitled)
    as (Hret & _).
  apply (Hret (py "new")).
  - vm_compute; reflexivity.
  - intros E. vm_compute in E. discriminate E.
Defined.

Lemma upsert_article_other_urls_witness :
  get_by_url (@upsert_article Demo.sqlite3 Demo.one_row_db Demo.retitled).2
    (py "https://example.com/x")
  = get_by_url Demo.one_row_db (py "https://example.com/x").
Proof.
  apply (@upsert_article_other_urls Demo.sqlite3 Demo.one_row_db Demo.retitled).
  intros E. vm_compute in E. discriminate E.
Defined.

Lemma upsert_article_primary_key_witness :
  NoDup (url <$> articles
           (@upsert_article Demo.sqlite3 Demo.one_row_db
              (Demo.row "https://example.com/boxeo-usyk-fury"
                 "2024-04-15T06:00:00+00:00" "cd34" 1300)).2)
  ∧ length (articles
              (@upsert_article Demo.sqlite3 Demo.one_row_db
                 (Demo.row "https://example.com/boxeo-usyk-fury"
                    "2024-04-15T06:00:00+00:00" "cd34" 1300)).2)
    = S (length (articles Demo.one_row_db)).
Proof.
  destruct (@upsert_article_primary_key Demo.sqlite3 Demo.one_row_db
              (Demo.row "https://example.com/boxeo-usyk-fury"
                 "2024-04-15T06:00:00+00:00" "cd34" 1300))
    as (_ & Hnd & Hlen & _).
  split.
  - apply Hnd. apply (bool_decide_unpack _). vm_compute. exact I.
  - apply Hlen. vm_compute; reflexivity.
Defined.

Lemma upsert_article_result_witness :
  (@upsert_article Demo.sqlite3 Storage.empty_db Demo.oversized).2 = Storage.empty_db
  ∧ has_url (@upsert_article Demo.sqlite3 Storage.empty_db Demo.retitled).2
      (url Demo.retitled) = true.
Proof.
  destruct (@upsert_article_result Demo.sqlite3 Storage.empty_db Demo.oversized)
    as (_ & _ & _ & _ & Hbad).
  destruct (@upsert_article_result Demo.sqlite3 Storage.empty_db Demo.retitled)
    as (Hret & _).
  split.
  - apply Hbad. left. intros [_ Hlt]. vm_compute in Hlt. discriminate Hlt.
  - apply (Hret (py "new")). vm_compute; reflexivity.
Defined.



Lemma str_leb_refl (a : str) : str_leb a a = true.
Proof. destruct (str_leb_total a a); done. Qed.

(** X7: the first row [list_recent] returns has the greatest [fetched_at] of
    the whole table. *)
Theorem list_recent_newest_first (db : SQLiteStore) (days limit : Z)
    (r0 : ArticleRow) (rest : list ArticleRow) :
  list_recent db days limit = r0 :: rest →
  ∀ r, r ∈ articles db → str_leb (fetched_at r) (fetched_at r0) = true.
Proof.
  intros Hrecent r Hr. unfold list_recent in Hrecent.
  destruct (sql_limit_prefix limit (merge_sort fetched_desc (articles db)))
    as [more Hmore].
  rewrite Hrecent in Hmore. simpl in Hmore.
  pose proof (@StronglySorted_merge_sort _ fetched_desc _
                fetched_desc_trans fetched_desc_total (articles db)) as Hsorted.
  rewrite <-(merge_sort_Permutation fetched_desc (articles db)) in Hr.
  rewrite <-Hmore in Hr, Hsorted.
  apply elem_of_cons in Hr as [->|Hr]; [apply str_leb_refl|].
  apply StronglySorted_inv in Hsorted as [_ Hall].
  rewrite Forall_forall in Hall. apply Is_true_true. by apply Hall.
Qed.

Lemma list_recent_newest_first_witness :
  str_leb (fetched_at (Demo.row "https://example.com/a" "2024-04-14T06:00:00+00:00" "ab12" 1200))
    (fetched_at (Demo.row "https://example.com/b" "2024-04-15T06:00:00+00:00" "cd34" 950))
  = true.
Proof.
  apply (list_recent_newest_first
           {| articles :=
                [Demo.row "https://example.com/a" "2024-04-14T06:00:00+00:00" "ab12" 1200;
                 Demo.row "https://example.com/b" "2024-04-15T06:00:00+00:00" "cd34" 950];
              runs := [] |} 14 1 _ []).
  - vm_compute; reflexivity.
  - apply list_elem_of_here.
Defined.

End store_more.

(** * Further properties of discovery *)
Section discovery_more.
Context `{Unicode} (w : Run.World).
Import Run.

Lemma dedupe_extends (limit : Z) (seen : gset str) (out candidates : list Candidate) :
  ∃ kept, dedupe limit seen out candidates = out ++ kept
          ∧ kept `sublist_of` candidates.
Proof.
  revert seen out. induction candidates as [|c rest IH]; intros seen out; simpl.
  - exists []. by rewrite app_nil_r.
  - repeat case_match.
    + destruct (IH seen out) as (kept & -> & Hsub).
      exists kept. split; [done | by apply sublist_cons].
    + exists [c]. split; [done|]. apply sublist_skip, sublist_nil_l.
    + destruct (IH ({[c_url c]} ∪ seen) (out ++ [c])) as (kept & -> & Hsub).
      exists (c :: kept). split; [by rewrite <-(assoc_L (++))|].
      by apply sublist_skip.
Qed.


Lemma dedupe_length (limit : Z) (seen : gset str) (out candidates : list Candidate) :
  Z.of_nat (length (dedupe limit seen out candidates))
  ≤ Z.max limit (Z.of_nat (length out) + 1).
Proof.
  revert seen out. induction candidates as [|c rest IH]; intros seen out; simpl.
  - lia.
  - case_bool_decide; [apply IH|].
    destruct (Z.leb_spec limit (Z.of_nat (length (out ++ [c])))) as [Hle|Hlt].
    + rewrite length_app. simpl. lia.
    + etrans; [apply IH|]. rewrite length_app in *. simpl in *. lia.
Qed.


(** X9: a listing page gives at most [limit] candidates, but never fewer
    than one when some anchor passes the tests, even for a limit below one:
    the length test comes after the append. *)
Theorem get_urls_from_html_list_bound (t : nat) (list_url : str) (limit : Z)
    (items : list Candidate) :
  get_urls_from_html_list w t list_url limit = Ok items →
  Z.of_nat (length items) ≤ Z.max limit 1
  ∧ ∀ status final_url html,
      fetch w t list_url = Ok (status, final_url, html) →
      omap (anchor_candidate w final_url) (select_a_href w html) ≠ [] →
      items ≠ [].
Proof.
  unfold get_urls_from_html_list.
  destruct (fetch w t list_url) as [ [[status final_url] html] | ex ]; [|discriminate].
  intros [= <-]. unfold listing_candidates. split.
  - apply (dedupe_length limit ∅ []).
  - intros ? ? ? [= <- <- <-] Hne.
    destruct (omap _ _) as [|c rest]; [done|]. simpl.
    rewrite bool_decide_eq_false_2 by set_solver.
    case_match; [done|].
    destruct (dedupe_extends limit ({[c_url c]} ∪ ∅) [c] rest) as (kept & -> & _).
    done.
Qed.

(** X10: what every candidate of a listing page looks like: a stripped link
    text of at least 18 characters as title, a URL starting with "http" that
    is the href or the href resolved on the page's scheme and host, whose
    lowercase form has no asset extension and no navigation segment, and an
    empty publication date. *)
Theorem get_urls_from_html_list_shape (t : nat) (list_url : str) (limit : Z)
    (items : list Candidate) (c : Candidate) :
  get_urls_from_html_list w t list_url limit = Ok items →
  c ∈ items →
  (18 ≤ length (c_title c))%nat
  ∧ startswith (py "http") (c_url c) = true
  ∧ c_published c = []
  ∧ existsb (λ ext, endswith ext (lower (c_url c)))
      [py ".jpg"; py ".png"; py ".svg"; py ".css"; py ".js"; py ".webp";
       py ".mp4"; py ".woff"; py ".woff2"] = false
  ∧ any_in
      [py "/inicio"; py "/ver"; py "/para-ti"; py "/suscrib"; py "/registro";
       py "/deportes"; py "/resultados"; py "/calendario"; py "/medallero";
       py "/equipo"] (lower (c_url c)) = false
  ∧ ∃ status final_url html a,
      fetch w t list_url = Ok (status, final_url, html)
      ∧ a ∈ select_a_href w html
      ∧ c_title c = strip (or_str (get_text a) [])
      ∧ (c_url c = href a
         ∨ c_url c = scheme (urlparse w final_url) ++ py "://"
                     ++ netloc (urlparse w final_url) ++ href a).
Proof.
  unfold get_urls_from_html_list.
  destruct (fetch w t list_url) as [ [[status final_url] html] | ex ]; [|discriminate].
  intros [= <-] Hc. unfold listing_candidates in Hc.
  apply dedupe_elem_of in Hc as [Hc|Hc]; [by apply elem_of_nil in Hc|].
  apply list_elem_of_omap in Hc as (a & Ha & Hc).
  unfold anchor_candidate in Hc. cbv zeta in Hc.
  assert (∃ href1, (if startswith (py "/") (href a)
                    then scheme (urlparse w final_url) ++ py "://"
                         ++ netloc (urlparse w final_url) ++ href a
                    else href a) = href1
                   ∧ (href1 = href a
                      ∨ href1 = scheme (urlparse w final_url) ++ py "://"
                                ++ netloc (urlparse w final_url) ++ href a))
    as (href1 & Ehref & Hhref).
  { destruct (startswith (py "/") (href a)); eexists; split; eauto. }
  rewrite Ehref in Hc. clear Ehref.
  destruct (bool_decide (href a = []) || _) eqn:Hshort; [discriminate|].
  apply orb_false_iff in Hshort as [_ Hlen]. apply Z.ltb_ge in Hlen.
  destruct (negb (startswith (py "http") _)) eqn:Hhttp; [discriminate|].
  apply negb_false_iff in Hhttp.
  destruct (existsb _ _) eqn:Hext; [discriminate|].
  destruct (any_in _ _) eqn:Hnav; [discriminate|].
  destruct (count_char SLASH _ <? 4); [discriminate|].
  injection Hc as <-. cbv beta iota delta [c_title c_url c_published].
  split_and!; [lia|done|done|done|done|].
  by exists status, final_url, html, a.
Qed.

Lemma slice_to_length {A} (n : Z) (l : list A) :
  length (slice_to n l)
  = if 0 <=? n then Nat.min (Z.to_nat n) (length l)
    else (length l - Z.to_nat (- n))%nat.
Proof.
  unfold slice_to. destruct (0 <=? n); rewrite length_take; lia.
Qed.

(** X11: a feed gives one candidate per entry kept by the slice
    [entries[:limit]]: at most [limit] of them for a limit that is not
    negative, all but the last [-limit] for a negative one; each candidate
    comes from an entry, with missing fields read as empty strings. *)
Theorem get_urls_from_rss_bound (t : nat) (feed_url : str) (limit : Z) :
  let entries := feedparser_parse w t feed_url in
  let items := get_urls_from_rss w t feed_url limit in
  (0 ≤ limit → Z.of_nat (length items) = Z.min limit (Z.of_nat (length entries)))
  ∧ (limit < 0 → length items = (length entries - Z.to_nat (- limit))%nat)
  ∧ ∀ c, c ∈ items →
      ∃ e, e ∈ entries
        ∧ c_title c = opt_or_str (entry_title e) []
        ∧ c_url c = opt_or_str (entry_link e) []
        ∧ c_published c = opt_or_str (entry_published e) [].
Proof.
  intros entries items. unfold items, get_urls_from_rss. fold entries.
  rewrite length_fmap, slice_to_length. split_and!.
  - intros Hlim. destruct (Z.leb_spec 0 limit); lia.
  - intros Hlim. destruct (Z.leb_spec 0 limit); lia.
  - intros c Hc. apply list_elem_of_fmap in Hc as (e & -> & He).
    exists e. split; [|done].
    unfold slice_to in He. destruct (0 <=? limit);
      apply list_elem_of_lookup in He as [i Hi];
      apply lookup_take_Some in Hi as [Hi _];
      by apply list_elem_of_lookup_2 in Hi.
Qed.

End discovery_more.

Lemma get_urls_from_rss_bound_witness :
  Z.of_nat (length (Run.get_urls_from_rss Demo.world 0 Demo.listing_url 30))
  = Z.min 30 (Z.of_nat (length (Run.feedparser_parse Demo.world 0 Demo.listing_url))).
Proof.
  apply (get_urls_from_rss_bound Demo.world 0 Demo.listing_url 30). lia.
Defined.


Lemma get_urls_from_html_list_bound_witness :
  Z.of_nat (length [Demo.anchor_candidate]) ≤ Z.max 0 1.
Proof.
  apply (@get_urls_from_html_list_bound latin1 Demo.world 0 Demo.listing_url 0
           [Demo.anchor_candidate]).
  vm_compute; reflexivity.
Defined.

Lemma get_urls_from_html_list_shape_witness :
  (18 ≤ length (Run.c_title Demo.anchor_candidate))%nat
  ∧ startswith (py "http") (Run.c_url Demo.anchor_candidate) = true.
Proof.
  destruct (@get_urls_from_html_list_shape latin1 Demo.world 0 Demo.listing_url 60
              [Demo.anchor_candidate] Demo.anchor_candidate)
    as (Hlen & Hhttp & _).
  - vm_compute; reflexivity.
  - apply list_elem_of_here.
  - by split.
Defined.

(** * Further properties of the orchestrator *)
Section pipeline_more.
Context `{Unicode} `{Storage.Sqlite3} (w : Run.World).
Import Storage Run.

Lemma probe_row_consistent_error (row : ProbeRow) (ex : Exception) :
  probe_row_consistent (error_row row ex).
Proof. unfold probe_row_consistent. cbn. split_and!; try done; by split. Qed.

Lemma probe_row_consistent_fetched (row : ProbeRow) (status : Z)
    (furl dom text hash : str) :
  probe_row_consistent (fetched_row row status furl dom text hash).
Proof.
  unfold probe_row_consistent, fetched_row.
  cbv beta iota zeta
    delta [p_extract_ok p_error p_extracted_chars p_http_status p_final_url p_domain].
  destruct (Z.leb_spec MIN_CHARS (Z.of_nat (length text))); split_and!;
    try done; try (by split); intros; lia || done.
Qed.

Lemma count_ok_snoc (rows : list ProbeRow) (row : ProbeRow) :
  Z.of_nat (length (filter (λ r, p_extract_ok r = true) (rows ++ [row])))
  = Z.of_nat (length (filter (λ r, p_extract_ok r = true) rows))
    + (if p_extract_ok row then 1 else 0).
Proof.
  rewrite filter_app, length_app, filter_cons, filter_nil.
  destruct (p_extract_ok row); simpl; lia.
Qed.

Lemma count_raised_snoc (tr : list Event) (e : Event) :
  Z.of_nat (length (filter (λ e, upsert_raised e = true) (tr ++ [e])))
  = Z.of_nat (length (filter (λ e, upsert_raised e = true) tr))
    + (if upsert_raised e then 1 else 0).
Proof.
  rewrite filter_app, length_app, filter_cons, filter_nil.
  destruct (upsert_raised e); simpl; lia.
Qed.

Lemma fetched_row_ok (row : ProbeRow) (status : Z) (furl dom text hash : str) :
  p_extract_ok (fetched_row row status furl dom text hash)
  = (MIN_CHARS <=? Z.of_nat (length text)).
Proof. reflexivity. Qed.

Local Ltac state_cbn :=
  cbn [db rows_probe total_candidates stored_new stored_updated
       skipped_existing extract_ok trace tick
       append_probe advance log set_db incr_total_candidates
       incr_skipped_existing incr_extract_ok incr_stored_new
       incr_stored_updated articles runs with_articles].

Local Ltac upsert_events A9 :=
  let u := fresh "u" in let res := fresh "res" in let Hin := fresh "Hin" in
  intros u res Hin; rewrite ?elem_of_app, ?list_elem_of_singleton in Hin;
  repeat match type of Hin with _ ∨ _ => destruct Hin as [Hin|Hin] end;
  first [by apply (A9 u) | discriminate Hin | by injection Hin as _ ->].

Lemma process_item_accounting (db0 : SQLiteStore) (src : Sources.Source)
    (it : Candidate) (s : RunState) :
  run_accounting db0 s → run_accounting db0 (process_item w src it s).
Proof.
  intros (A1 & A2 & A3 & A4 & A5 & (added & A6 & A6') & A7 & A8 & A9).
  destruct (process_item_cases w src it s)
    as [[_ E]|[(_ & _ & E)|[(_ & _ & ex & _ & E)
       |(_ & _ & status & furl & html & text & _ & _
         & [(ex & Hsha & E)|(hash & Hhash
            & [[Hlen E]|[(Hlen & Hbind & Hup & E)|(Hlen & ex & Hbind & Hup & E)]])])]]];
    rewrite E; clear E; unfold run_accounting; state_cbn;
    rewrite ?count_raised_snoc, ?count_ok_snoc; cbn [upsert_raised].
  - split_and!; [done|done|done|done|lia|by exists added|done|done|done].
  - split_and!; [done|done|lia|lia|lia|by exists added|done|done|].
    upsert_events A9.
  - split_and!; [done| | |done| |by exists added|done| |].
    + cbn [p_extract_ok error_row]. lia.
    + lia.
    + rewrite length_app. simpl. lia.
    + apply Forall_app. split; [done|]. apply Forall_singleton.
      apply probe_row_consistent_error.
    + upsert_events A9.
  - split_and!; [done| | |done| |by exists added|done| |].
    + cbn [p_extract_ok error_row]. lia.
    + lia.
    + rewrite length_app. simpl. lia.
    + apply Forall_app. split; [done|]. apply Forall_singleton.
      apply probe_row_consistent_error.
    + upsert_events A9.
  - assert (p_extract_ok (fetched_row (base_row src it) status furl
                            (netloc (urlparse w furl)) text hash) = false) as Hok.
    { rewrite fetched_row_ok. apply Z.leb_gt. lia. }
    rewrite Hok.
    split_and!; [done|lia|lia|done| |by exists added|done| |].
    + rewrite length_app. simpl. lia.
    + apply Forall_app. split; [done|]. apply Forall_singleton.
      apply probe_row_consistent_fetched.
    + upsert_events A9.
  - assert (p_extract_ok (fetched_row (base_row src it) status furl
                            (netloc (urlparse w furl)) text hash) = true) as Hok.
    { rewrite fetched_row_ok. by apply Z.leb_le. }
    rewrite Hok.
    split_and!; [done|lia|lia|done| | |done| |].
    + rewrite length_app. simpl. lia.
    + eexists (added ++ [_]). split.
      * rewrite A6, <-(assoc_L (++)). reflexivity.
      * rewrite length_app. simpl. lia.
    + apply Forall_app. split; [done|]. apply Forall_singleton.
      apply probe_row_consistent_fetched.
    + upsert_events A9.
  - split_and!; [done| | |done| |by exists added|done| |].
    + cbn [p_extract_ok error_row]. lia.
    + lia.
    + rewrite length_app. simpl. lia.
    + apply Forall_app. split; [done|]. apply Forall_singleton.
      apply probe_row_consistent_error.
    + upsert_events A9.
Qed.

(** What the candidate loop keeps, the two loops over it keep. *)
Lemma process_sources_preserves (P : RunState → Prop) :
  (∀ src it s, P s → P (process_item w src it s)) →
  (∀ s, P s → P (advance s)) →
  (∀ u s, P s → P (log (EvListing u) s)) →
  ∀ limit srcs s, P s → P (process_sources w limit srcs s).1.
Proof.
  intros Hitem Hadv Hlog limit.
  assert (∀ src items s, P s → P (process_items w src items s)) as Hitems.
  { intros src items. unfold process_items.
    induction items as [|it items IH]; intros s Hs; simpl; [done|].
    apply IH. by apply Hitem. }
  assert (∀ src s, P s → P (process_source w limit src s).1) as Hsrc.
  { intros src s Hs. unfold process_source. cbv zeta.
    case_bool_decide; [|case_bool_decide]; cbn [fst]; [| |done].
    - apply Hitems. by apply Hadv.
    - destruct (get_urls_from_html_list w _ _ _) as [items|ex]; cbn [fst].
      + apply Hitems. by apply Hadv, Hlog.
      + by apply Hadv, Hlog. }
  induction srcs as [|src srcs IH]; intros s Hs; simpl; [done|].
  pose proof (Hsrc src s Hs) as Hs'.
  destruct (process_source w limit src s) as [s' [ex|]]; [done|].
  by apply IH.
Qed.

(** The state of a run when it ends, in terms of the state [s] the loop over
    the sources leaves. *)
Lemma main_final (db0 : SQLiteStore) (t0 : nat) (limit : Z) :
  let o := main w db0 t0 limit in
  ∃ s, run_accounting db0 s
    ∧ (NoDup (url <$> articles db0) → NoDup (url <$> articles (db s)))
    ∧ ((∃ ex, uncaught o = Some ex ∧ final o = s ∧ site o = [])
       ∨ (uncaught o = None
          ∧ final o
            = set_db (record_run (db s)
                        {| run_id := utcnow_isoformat w t0;
                           started_at := utcnow_isoformat w t0;
                           finished_at := utcnow_isoformat w (tick s);
                           run_total_candidates := total_candidates s;
                           run_stored_new := stored_new s;
                           run_stored_updated := stored_updated s;
                           run_skipped_existing := skipped_existing s;
                           run_extract_ok := extract_ok s |})
                (advance s)
          ∧ site o = Sitegen.build_index (list_recent (db (final o)) 14 2000))).
Proof.
  intros o. unfold o, main. cbv zeta.
  match goal with |- context [process_sources w limit Sources.SOURCES ?s0] =>
    set (init := s0)
  end.
  assert (run_accounting db0 init) as Hacc.
  { unfold run_accounting, init. state_cbn.
    split_and!; try done.
    - exists []. by rewrite app_nil_r.
    - intros u res Hin. by apply elem_of_nil in Hin. }
  apply (process_sources_preserves (run_accounting db0)) with
    (limit := limit) (srcs := Sources.SOURCES) in Hacc;
    [|apply process_item_accounting|done|].
  2:{ intros u s (A1 & A2 & A3 & A4 & A5 & A6 & A7 & A8 & A9).
      unfold run_accounting. state_cbn.
      rewrite count_raised_snoc. cbn [upsert_raised].
      split_and!; try done; [lia|].
      intros v res Hin. rewrite elem_of_app, list_elem_of_singleton in Hin.
      destruct Hin as [Hin|?]; [by apply (A9 v) | done]. }
  assert (NoDup (url <$> articles db0) →
          NoDup (url <$> articles
                   (db (process_sources w limit Sources.SOURCES init).1))) as Hnd.
  { intros Hnd0.
    apply (process_sources_preserves (λ s, NoDup (url <$> articles (db s))));
      [|done|done|done].
    intros src it s Hs.
    destruct (process_item_cases w src it s)
      as [[_ E]|[(_ & _ & E)|[(_ & _ & ex & _ & E)
         |(_ & _ & status & furl & html & text & _ & _
           & [(ex & Hsha & E)|(hash & Hhash
              & [[Hlen E]|[(Hlen & Hbind & Hup & E)|(Hlen & ex & Hbind & Hup & E)]])])]]];
      rewrite E; clear E; state_cbn; try done.
    match goal with |- NoDup (url <$> articles (db s) ++ [?a]) =>
      pose proof (upsert_article_NoDup (db s) a Hs) as Hnd1
    end.
    by rewrite Hup in Hnd1. }
  destruct (process_sources w limit Sources.SOURCES init) as [s [ex|]];
    cbn [fst] in *; exists s; (split; [done|]); (split; [done|]).
  - left. by exists ex.
  - right. done.
Qed.

(** X12: a run only ever inserts.  Because [has_url] is asked first, every
    call to [upsert_article] that returns answers "new": [stored_updated]
    ends at zero,
    and the articles table at the end is the one at the start followed by
    [stored_new] added rows. *)
Theorem main_only_inserts (db0 : SQLiteStore) (t0 : nat) (limit : Z) :
  let s := final (main w db0 t0 limit) in
  stored_updated s = 0
  ∧ (∃ added, articles (db s) = articles db0 ++ added
       ∧ Z.of_nat (length added) = stored_new s)
  ∧ (∀ u res, EvUpsert u res ∈ trace s → res = py "new").
Proof.
  intros s. unfold s.
  destruct (main_final db0 t0 limit)
    as (s' & (A1 & A2 & A3 & A4 & A5 & A6 & A7 & A8 & A9) & _
        & [(ex & _ & -> & _)|(_ & -> & _)]); state_cbn; done.
Qed.

(** X13: the counters of a run add up: [stored_new] counts the debug rows
    flagged [extract_ok]; [extract_ok], which is incremented before
    [upsert_article] is called, counts these and the calls that raised, so
    it is never below [stored_new] and equals it when no call raised; and
    skipped candidates plus debug rows do not exceed the candidates counted
    (the rest were rejected by the topic filter). *)
Theorem main_counters (db0 : SQLiteStore) (t0 : nat) (limit : Z) :
  let s := final (main w db0 t0 limit) in
  stored_new s
  = Z.of_nat (length (filter (λ row, p_extract_ok row = true) (rows_probe s)))
  ∧ extract_ok s
    = stored_new s
      + Z.of_nat (length (filter (λ e, upsert_raised e = true) (trace s)))
  ∧ stored_new s ≤ extract_ok s
  ∧ ((∀ u, EvUpsertRaised u ∉ trace s) → stored_new s = extract_ok s)
  ∧ 0 ≤ skipped_existing s
  ∧ skipped_existing s + Z.of_nat (length (rows_probe s)) ≤ total_candidates s.
Proof.
  intros s.
  assert (stored_new s
          = Z.of_nat (length (filter (λ row, p_extract_ok row = true) (rows_probe s)))
          ∧ extract_ok s
            = stored_new s
              + Z.of_nat (length (filter (λ e, upsert_raised e = true) (trace s)))
          ∧ 0 ≤ skipped_existing s
          ∧ skipped_existing s + Z.of_nat (length (rows_probe s)) ≤ total_candidates s)
    as (C1 & C2 & C3 & C4).
  { unfold s.
    destruct (main_final db0 t0 limit)
      as (s' & (A1 & A2 & A3 & A4 & A5 & A6 & A7 & A8 & A9) & _
          & [(ex & _ & -> & _)|(_ & -> & _)]); state_cbn; done. }
  split_and!; [done | done | lia | | done | done].
  intros Hnone. rewrite C2.
  rewrite (filter_none (λ e, upsert_raised e = true) (trace s)); [simpl; lia|].
  intros e Hin. destruct e; try done. by destruct (Hnone u).
Qed.

(** X14: every row of the debug snapshot of a run is consistent: it is
    flagged [extract_ok] exactly when it has no error, and then reports at
    least [MIN_CHARS] characters; status, final URL and domain are null
    together, and then it reports zero characters and is not flagged. *)
Theorem main_probe_rows (db0 : SQLiteStore) (t0 : nat) (limit : Z) :
  Forall probe_row_consistent (rows_probe (final (main w db0 t0 limit))).
Proof.
  destruct (main_final db0 t0 limit)
    as (s' & (A1 & A2 & A3 & A4 & A5 & A6 & A7 & A8 & A9) & _
        & [(ex & _ & -> & _)|(_ & -> & _)]); state_cbn; done.
Qed.





End pipeline_more.

Section reachable_more.
Context `{Unicode} `{Storage.Sqlite3}.
Import Storage Run.

(** X19: the URLs of the rows of a database that runs of the pipeline
    produce from an empty one are pairwise distinct. *)
Theorem reachable_urls_distinct (db1 : SQLiteStore) :
  reachable db1 → NoDup (url <$> articles db1).
Proof.
  induction 1 as [|w db0 t0 limit _ IH]; [apply NoDup_nil_2|].
  destruct (main_final w db0 t0 limit)
    as (s & _ & Hnd & [(ex & _ & -> & _)|(_ & -> & _)]); by apply Hnd.
Qed.

End reachable_more.

Lemma main_only_inserts_witness :
  Run.EvUpsert Demo.feed_link (py "new")
    ∈ Run.trace (Run.final (@Run.main latin1 Demo.sqlite3 Demo.world Storage.empty_db 0 30))
  ∧ py "new" = py "new".
Proof.
  assert (Run.EvUpsert Demo.feed_link (py "new")
            ∈ Run.trace (Run.final (@Run.main latin1 Demo.sqlite3 Demo.world Storage.empty_db 0 30)))
    as Hin by (apply (bool_decide_unpack _); vm_compute; exact I).
  split; [exact Hin|].
  destruct (@main_only_inserts latin1 Demo.sqlite3 Demo.world Storage.empty_db 0 30)
    as (_ & _ & Hnew).
  exact (Hnew Demo.feed_link (py "new") Hin).
Defined.

Lemma main_counters_witness :
  Run.stored_new (Run.final (@Run.main latin1 Demo.sqlite3 Demo.world Storage.empty_db 0 30))
  = Run.extract_ok (Run.final (@Run.main latin1 Demo.sqlite3 Demo.world Storage.empty_db 0 30)).
Proof.
  destruct (@main_counters latin1 Demo.sqlite3 Demo.world Storage.empty_db 0 30)
    as (_ & _ & _ & Hsame & _).
  apply Hsame. intros u. apply (bool_decide_unpack _). vm_compute. exact I.
Defined.





(** A text of five thousand characters and a lone surrogate: the hash is
    taken of the first five thousand, [upsert_article] raises on the text,
    nothing is stored, the debug row is the error row, and [extract_ok] is
    one while [stored_new] is zero. *)
Lemma long_extraction_unencodable :
  Run.db (@Run.process_item latin1 Demo.sqlite3 Demo.surrogate_world Demo.marca
            Demo.feed_candidate (Demo.start Storage.empty_db))
  = Storage.empty_db
  ∧ Run.p_error <$> Run.rows_probe
      (@Run.process_item latin1 Demo.sqlite3 Demo.surrogate_world Demo.marca
         Demo.feed_candidate (Demo.start Storage.empty_db))
    = [Some (repr Demo.encode_error)]
  ∧ Run.p_extract_ok <$> Run.rows_probe
      (@Run.process_item latin1 Demo.sqlite3 Demo.surrogate_world Demo.marca
         Demo.feed_candidate (Demo.start Storage.empty_db))
    = [false]
  ∧ Run.trace
      (@Run.process_item latin1 Demo.sqlite3 Demo.surrogate_world Demo.marca
         Demo.feed_candidate (Demo.start Storage.empty_db))
    = [Run.EvHasUrl Demo.feed_link false; Run.EvFetch Demo.feed_link;
       Run.EvUpsertRaised Demo.feed_link]
  ∧ Run.extract_ok
      (@Run.process_item latin1 Demo.sqlite3 Demo.surrogate_world Demo.marca
         Demo.feed_candidate (Demo.start Storage.empty_db))
    = 1
  ∧ Run.stored_new
      (@Run.process_item latin1 Demo.sqlite3 Demo.surrogate_world Demo.marca
         Demo.feed_candidate (Demo.start Storage.empty_db))
    = 0.
Proof. split_and!; vm_compute; reflexivity. Qed.

(** A lone surrogate followed by a thousand characters: [sha] raises before
    [extract_ok] is incremented and before any call to the store; the debug
    row is the error row. *)
Lemma long_extraction_unhashable :
  Run.db (@Run.process_item latin1 Demo.sqlite3 Demo.early_surrogate_world Demo.marca
            Demo.feed_candidate (Demo.start Storage.empty_db))
  = Storage.empty_db
  ∧ Run.p_error <$> Run.rows_probe
      (@Run.process_item latin1 Demo.sqlite3 Demo.early_surrogate_world Demo.marca
         Demo.feed_candidate (Demo.start Storage.empty_db))
    = [Some (repr Demo.encode_error)]
  ∧ Run.trace
      (@Run.process_item latin1 Demo.sqlite3 Demo.early_surrogate_world Demo.marca
         Demo.feed_candidate (Demo.start Storage.empty_db))
    = [Run.EvHasUrl Demo.feed_link false; Run.EvFetch Demo.feed_link]
  ∧ Run.extract_ok
      (@Run.process_item latin1 Demo.sqlite3 Demo.early_surrogate_world Demo.marca
         Demo.feed_candidate (Demo.start Storage.empty_db))
    = 0
  ∧ Run.stored_new
      (@Run.process_item latin1 Demo.sqlite3 Demo.early_surrogate_world Demo.marca
         Demo.feed_candidate (Demo.start Storage.empty_db))
    = 0.
Proof. split_and!; vm_compute; reflexivity. Qed.

Lemma reachable_urls_distinct_witness :
  NoDup (Storage.url <$> Storage.articles Demo.after_first_run).
Proof.
  apply (@reachable_urls_distinct latin1 Demo.sqlite3 Demo.after_first_run).
  exact (@reachable_run latin1 Demo.sqlite3 Demo.world Storage.empty_db 0 30
           (@reachable_empty latin1 Demo.sqlite3)).
Defined.

(** * Further properties of text handling *)
Section text_more.
Context `{Unicode}.

Lemma lstrip_suffix (s : str) : lstrip s `suffix_of` s.
Proof.
  induction s as [|c s IH]; simpl; [done|].
  destruct (isspace c); [by apply suffix_cons_r | done].
Qed.

Lemma lstrip_head (s : str) (c : N) : head (lstrip s) = Some c → isspace c = false.
Proof.
  induction s as [|x s IH]; simpl; [done|].
  destruct (isspace x) eqn:Hx; [exact IH|]. simpl. by intros [= <-].
Qed.

Lemma strip_subset (s : str) (c : N) : c ∈ strip s → c ∈ s.
Proof.
  unfold strip. rewrite elem_of_reverse. intros Hc.
  destruct (lstrip_suffix (reverse (lstrip s))) as [k1 E1].
  assert (c ∈ reverse (lstrip s)) as Hc'
    by (rewrite E1; apply elem_of_app; by right).
  rewrite elem_of_reverse in Hc'.
  destruct (lstrip_suffix s) as [k2 E2]. rewrite E2.
  apply elem_of_app. by right.
Qed.

Lemma strip_length (s : str) : (length (strip s) ≤ length s)%nat.
Proof.
  unfold strip. rewrite length_reverse.
  etrans; [apply suffix_length, lstrip_suffix|].
  rewrite length_reverse. apply suffix_length, lstrip_suffix.
Qed.

Lemma strip_ends (s : str) (c : N) :
  head (strip s) = Some c ∨ last (strip s) = Some c → isspace c = false.
Proof.
  unfold strip. rewrite head_reverse, last_reverse. intros [Hc|Hc].
  - destruct (lstrip_suffix (reverse (lstrip s))) as [k E].
    assert (last (reverse (lstrip s)) = Some c) as Hlast.
    { rewrite E, last_app, Hc. done. }
    rewrite last_reverse in Hlast. by apply lstrip_head in Hlast.
  - by apply lstrip_head in Hc.
Qed.

(** X20: [extract_text] raises only when the extraction library does; it
    reads a missing result as the empty text; and the text it returns has
    no white space at either end. *)
Theorem extract_text_stripped (w : Run.World) (html : str) :
  (∀ ex, Run.extract_text w html = Raise ex ↔ Run.trafilatura_extract w html = Raise ex)
  ∧ (Run.trafilatura_extract w html = Ok None → Run.extract_text w html = Ok [])
  ∧ (∀ text, Run.extract_text w html = Ok text →
       ∀ c, head text = Some c ∨ last text = Some c → isspace c = false).
Proof.
  unfold Run.extract_text.
  destruct (Run.trafilatura_extract w html) as [o|ex']; split_and!.
  - intros ex. split; discriminate.
  - intros [= ->]. done.
  - intros text [= <-] c. apply strip_ends.
  - intros ex. split; intros [= ->]; done.
  - discriminate.
  - discriminate.
Qed.

(** X21: [build_index] makes one entry per row, in order; an entry carries
    the row's URL and title and its category; its preview has at most 280
    characters, none of them a line feed, is empty for an empty text, and
    has no white space at either end. *)
Theorem build_index_entries (rows : list Storage.ArticleRow) :
  Forall2
    (λ r item,
       Sitegen.item_url item = Storage.url r
       ∧ Sitegen.item_title item = Storage.title r
       ∧ Sitegen.item_sport item
         = Sitegen.classify_sport (Storage.title r) (Storage.url r) (Storage.text r)
       ∧ (length (Sitegen.item_preview item) ≤ 280)%nat
       ∧ (10%N ∉ (Sitegen.item_preview item))
       ∧ (Storage.text r = [] → Sitegen.item_preview item = [])
       ∧ (∀ c, head (Sitegen.item_preview item) = Some c
               ∨ last (Sitegen.item_preview item) = Some c → isspace c = false))
    rows (Sitegen.build_index rows).
Proof.
  unfold Sitegen.build_index.
  induction rows as [|r rows IH]; [apply Forall2_nil_2|].
  cbn [fmap list_fmap]. apply Forall2_cons_2; [|exact IH]. clear IH.
  cbv beta iota zeta
    delta [Sitegen.build_index_item Sitegen.item_url Sitegen.item_title
           Sitegen.item_sport Sitegen.item_preview].
  rewrite !or_str_empty. split_and!; try done.
  - destruct (Storage.text r) as [|c0 txt]; [simpl; lia|].
    etrans; [apply strip_length|]. rewrite length_fmap.
    rewrite slice_to_length. destruct (Z.leb_spec 0 280); lia.
  - destruct (Storage.text r) as [|c0 txt]; [apply not_elem_of_nil|].
    intros Hin. apply strip_subset in Hin.
    apply list_elem_of_fmap in Hin as (c & Hc & _).
    destruct (N.eqb_spec c 10); [discriminate Hc | congruence].
  - by intros ->.
  - intros c. destruct (Storage.text r) as [|c0 txt]; [by intros [?|?]|].
    apply strip_ends.
Qed.

Import Sitegen.

(** X22: a keyword in any of the three fields decides the category: an MMA
    keyword in a lowercased field gives "MMA" or "Mixto", a boxing keyword
    gives "Boxeo" or "Mixto". *)
Theorem classify_sport_keyword_in_field (title url text k f : str) :
  f ∈ [title; url; text] →
  contains k (lower f) = true →
  (k ∈ KEYWORDS_MMA → classify_sport title url text ∈ [py "MMA"; py "Mixto"])
  ∧ (k ∈ KEYWORDS_BOX → classify_sport title url text ∈ [py "Boxeo"; py "Mixto"]).
Proof.
  intros Hf Hk. apply contains_occurs in Hk.
  assert (occurs k (lower (title ++ [SPACE] ++ url ++ [SPACE] ++ text))) as Hocc.
  { rewrite lower_fields.
    apply elem_of_cons in Hf as [->|Hf]; [by apply occurs_app_l|].
    apply occurs_app_r.
    apply elem_of_cons in Hf as [->|Hf]; [by apply occurs_app_r, occurs_app_l|].
    apply list_elem_of_singleton in Hf as ->. by do 3 apply occurs_app_r. }
  rewrite classify_sport_cases. cbv zeta. split; intros Hin.
  - assert (any_in KEYWORDS_MMA (lower (title ++ [SPACE] ++ url ++ [SPACE] ++ text))
            = true) as -> by (apply any_in_true; eauto).
    destruct (any_in KEYWORDS_BOX _);
      [apply list_elem_of_further, list_elem_of_here | apply list_elem_of_here].
  - assert (any_in KEYWORDS_BOX (lower (title ++ [SPACE] ++ url ++ [SPACE] ++ text))
            = true) as -> by (apply any_in_true; eauto).
    destruct (any_in KEYWORDS_MMA _);
      [apply list_elem_of_further, list_elem_of_here | apply list_elem_of_here].
Qed.

(** X23: a stopword in the lowercased title or URL makes the topic filter
    reject the pair, whatever keywords it contains. *)
Theorem looks_like_combat_sports_stopword (title url k : str) :
  k ∈ Run.STOPWORDS_URL →
  contains k (lower title) = true ∨ contains k (lower url) = true →
  Run.looks_like_combat_sports title url = false.
Proof.
  intros Hk Hocc. unfold Run.looks_like_combat_sports. cbv zeta.
  assert (any_in Run.STOPWORDS_URL (lower (title ++ [SPACE] ++ url)) = true) as ->;
    [|done].
  apply any_in_true. exists k. split; [done|].
  rewrite !lower_app.
  destruct Hocc as [Hocc|Hocc]; apply contains_occurs in Hocc.
  - by apply occurs_app_l.
  - by do 2 apply occurs_app_r.
Qed.

End text_more.

Lemma extract_text_stripped_witness :
  @Run.extract_text latin1 Demo.world (py "<html></html>") = Ok [].
Proof.
  apply (@extract_text_stripped latin1 Demo.world (py "<html></html>")).
  vm_compute; reflexivity.
Defined.

Lemma build_index_entries_witness :
  (length (Sitegen.item_preview (@Sitegen.build_index_item latin1 Demo.stored_row))
   ≤ 280)%nat.
Proof.
  pose proof (@build_index_entries latin1 [Demo.stored_row]) as Hall.
  apply Forall2_cons_1 in Hall as [(_ & _ & _ & Hlen & _) _].
  exact Hlen.
Defined.

Lemma classify_sport_keyword_in_field_witness :
  @Sitegen.classify_sport latin1 (py "Velada del sabado") (py "https://example.com/a")
    (py "Canelo defiende el titulo")
  ∈ [py "Boxeo"; py "Mixto"].
Proof.
  apply (@classify_sport_keyword_in_field latin1 _ _ _ (py "canelo")
           (py "Canelo defiende el titulo")).
  - do 2 apply list_elem_of_further. apply list_elem_of_here.
  - vm_compute; reflexivity.
  - apply (bool_decide_unpack _). vm_compute. exact I.
Defined.

Lemma looks_like_combat_sports_stopword_witness :
  @Run.looks_like_combat_sports latin1 (py "Topuria en el Bernabeu")
    (py "https://example.com/futbol/topuria")
  = false.
Proof.
  apply (@looks_like_combat_sports_stopword latin1 _ _ (py "/futbol/")).
  - apply (bool_decide_unpack _). vm_compute. exact I.
  - right. vm_compute; reflexivity.
Defined.

(** * The HTML escaping of the legacy script *)
Section esc_facts.

Lemma replace_char_bind (old : N) (new : str) (f : N → str) (s : str) :
  replace_char old new (s ≫= f) = s ≫= λ c, replace_char old new (f c).
Proof.
  unfold replace_char. induction s as [|c s IH]; [done|].
  by rewrite !bind_cons, bind_app, IH.
Qed.

Lemma esc_entities (s : str) : Funcoina.esc s = s ≫= html_entity.
Proof.
  unfold Funcoina.esc. rewrite or_str_empty.
  unfold replace_char at 3. rewrite !replace_char_bind.
  apply list_bind_ext; [|done]. intros c. unfold html_entity.
  destruct (N.eqb_spec c 38) as [->|H38]; [vm_compute; reflexivity|].
  destruct (N.eqb_spec c 60) as [->|H60]; [vm_compute; reflexivity|].
  destruct (N.eqb_spec c 62) as [->|H62]; [vm_compute; reflexivity|].
  unfold replace_char. rewrite !bind_singleton.
  rewrite (proj2 (N.eqb_neq c 60)) by done. rewrite bind_singleton.
  by rewrite (proj2 (N.eqb_neq c 62)) by done.
Qed.

(** X24: [esc] replaces each of the characters ampersand, less-than and
    greater-than by its entity and leaves every other character alone: an
    ampersand is escaped once, not again by the later replacements; the
    result has no less-than or greater-than sign; and text without the
    three characters comes back unchanged. *)
Theorem esc_escapes (s : str) :
  Funcoina.esc s = s ≫= html_entity
  ∧ (60%N ∉ Funcoina.esc s)
  ∧ (62%N ∉ Funcoina.esc s)
  ∧ ((∀ c, c ∈ s → c ≠ 38%N ∧ c ≠ 60%N ∧ c ≠ 62%N) → Funcoina.esc s = s).
Proof.
  rewrite esc_entities.
  assert (∀ c x, x ∈ html_entity c → x ≠ 60%N ∧ x ≠ 62%N) as Hent.
  { intros c x. unfold html_entity.
    destruct (N.eqb_spec c 38); [|destruct (N.eqb_spec c 60);
      [|destruct (N.eqb_spec c 62)]].
    - intros Hx. vm_compute in Hx.
      repeat (apply elem_of_cons in Hx as [->|Hx]; [done|]).
      by apply elem_of_nil in Hx.
    - intros Hx. vm_compute in Hx.
      repeat (apply elem_of_cons in Hx as [->|Hx]; [done|]).
      by apply elem_of_nil in Hx.
    - intros Hx. vm_compute in Hx.
      repeat (apply elem_of_cons in Hx as [->|Hx]; [done|]).
      by apply elem_of_nil in Hx.
    - intros Hx. apply list_elem_of_singleton in Hx as ->. done. }
  split_and!; [done| | |].
  - intros Hin. apply list_elem_of_bind in Hin as (c & Hx & _).
    by destruct (Hent c _ Hx).
  - intros Hin. apply list_elem_of_bind in Hin as (c & Hx & _).
    by destruct (Hent c _ Hx).
  - intros Hsafe. induction s as [|c s IH]; [done|].
    rewrite bind_cons, IH by (intros x Hx; apply Hsafe; by right).
    destruct (Hsafe c) as (H38 & H60 & H62); [by left|].
    unfold html_entity.
    by rewrite (proj2 (N.eqb_neq c 38)), (proj2 (N.eqb_neq c 60)),
      (proj2 (N.eqb_neq c 62)) by done.
Qed.

End esc_facts.

Lemma esc_escapes_witness : Funcoina.esc (py "UFC 300") = py "UFC 300".
Proof.
  apply (esc_escapes (py "UFC 300")).
  intros c Hc. vm_compute in Hc.
  repeat (apply elem_of_cons in Hc as [->|Hc]; [done|]).
  by apply elem_of_nil in Hc.
Defined.
